(** * Scheveningen ("West Coast Osc") for the Grains module: the synthesis core

    A shallow embedding of [core1ae-Scheveningen.ino]: the control-rate
    sampler [loop] and the audio-rate interrupt handler [wsAudioLoop], over
    the sketch's global variables, followed by the properties of the
    integer arithmetic.

    Target: an 8-bit AVR (ATtiny85), where [int] is 16 bits wide, so a
    [uint16_t] operand is never promoted to a wider signed type and every
    [uint16_t] operation wraps modulo 2^16.  The wrap-around is written out
    with [u16]; [uint32_t] and [uint8_t] likewise with [u32] and [u8]. *)

From Stdlib Require Import ZArith Bool List Lia.

Local Open Scope Z_scope.

(** ** Fixed-width unsigned integers *)

Definition u8 (x : Z) : Z := x mod 256.
Definition u16 (x : Z) : Z := x mod 65536.
Definition u32 (x : Z) : Z := x mod 4294967296.

(** [~x] on a 16-bit unsigned operand. *)
Definition not16 (x : Z) : Z := u16 (Z.lnot x).

(** Conversion of an integer to [bool]: any non-zero value is [true]. *)
Definition to_bool (x : Z) : bool := negb (x =? 0).

Definition is_u16 (x : Z) : Prop := 0 <= x <= 65535.
Definition is_adc (x : Z) : Prop := 0 <= x <= 1023.

(** ** The global variables of the sketch *)

Record state : Type := mkState {
  master_polarity : bool;        (* bool     master_polarity = 0       *)
  slave_polarity : bool;         (* bool     slave_polarity = 0        *)
  output : Z;                    (* uint8_t  output = 0                *)
  master_phase : Z;              (* uint16_t master_phase = 0          *)
  phase_inc : Z;                 (* uint16_t phase_inc = 1             *)
  slave_offset_current : Z;      (* uint16_t slave_offset_current = 1  *)
  slave_offset_measured : Z;     (* uint16_t slave_offset_measured = 1 *)
  wrap_factor : Z;               (* uint16_t wrap_factor = 64          *)
  neg_wrap_factor : Z;           (* uint16_t neg_wrap_factor = 64      *)
  slave_phase : Z;               (* uint16_t slave_phase = 0           *)
  master_value : Z;              (* uint16_t master_value = 0          *)
  slave_value : Z;               (* uint16_t slave_value = 0           *)
  accumulator : Z;               (* uint32_t accumulator = 0           *)
  pwm : Z                        (* the PWM compare register written by
                                    wsWriteToPWM                       *)
}.

Definition initial : state :=
  {| master_polarity := false; slave_polarity := false; output := 0;
     master_phase := 0; phase_inc := 1;
     slave_offset_current := 1; slave_offset_measured := 1;
     wrap_factor := 64; neg_wrap_factor := 64;
     slave_phase := 0; master_value := 0; slave_value := 0;
     accumulator := 0; pwm := 0 |}.

(** Assignments to one global, the others kept. *)

Definition set_master_polarity (b : bool) (s : state) : state :=
  mkState b (slave_polarity s) (output s) (master_phase s) (phase_inc s)
    (slave_offset_current s) (slave_offset_measured s) (wrap_factor s)
    (neg_wrap_factor s) (slave_phase s) (master_value s) (slave_value s)
    (accumulator s) (pwm s).

Definition set_slave_polarity (b : bool) (s : state) : state :=
  mkState (master_polarity s) b (output s) (master_phase s) (phase_inc s)
    (slave_offset_current s) (slave_offset_measured s) (wrap_factor s)
    (neg_wrap_factor s) (slave_phase s) (master_value s) (slave_value s)
    (accumulator s) (pwm s).

Definition set_output (v : Z) (s : state) : state :=
  mkState (master_polarity s) (slave_polarity s) v (master_phase s)
    (phase_inc s) (slave_offset_current s) (slave_offset_measured s)
    (wrap_factor s) (neg_wrap_factor s) (slave_phase s) (master_value s)
    (slave_value s) (accumulator s) (pwm s).

Definition set_master_phase (v : Z) (s : state) : state :=
  mkState (master_polarity s) (slave_polarity s) (output s) v (phase_inc s)
    (slave_offset_current s) (slave_offset_measured s) (wrap_factor s)
    (neg_wrap_factor s) (slave_phase s) (master_value s) (slave_value s)
    (accumulator s) (pwm s).

Definition set_phase_inc (v : Z) (s : state) : state :=
  mkState (master_polarity s) (slave_polarity s) (output s) (master_phase s)
    v (slave_offset_current s) (slave_offset_measured s) (wrap_factor s)
    (neg_wrap_factor s) (slave_phase s) (master_value s) (slave_value s)
    (accumulator s) (pwm s).

Definition set_slave_offset_current (v : Z) (s : state) : state :=
  mkState (master_polarity s) (slave_polarity s) (output s) (master_phase s)
    (phase_inc s) v (slave_offset_measured s) (wrap_factor s)
    (neg_wrap_factor s) (slave_phase s) (master_value s) (slave_value s)
    (accumulator s) (pwm s).

Definition set_slave_offset_measured (v : Z) (s : state) : state :=
  mkState (master_polarity s) (slave_polarity s) (output s) (master_phase s)
    (phase_inc s) (slave_offset_current s) v (wrap_factor s)
    (neg_wrap_factor s) (slave_phase s) (master_value s) (slave_value s)
    (accumulator s) (pwm s).

Definition set_wrap_factor (v : Z) (s : state) : state :=
  mkState (master_polarity s) (slave_polarity s) (output s) (master_phase s)
    (phase_inc s) (slave_offset_current s) (slave_offset_measured s) v
    (neg_wrap_factor s) (slave_phase s) (master_value s) (slave_value s)
    (accumulator s) (pwm s).

Definition set_neg_wrap_factor (v : Z) (s : state) : state :=
  mkState (master_polarity s) (slave_polarity s) (output s) (master_phase s)
    (phase_inc s) (slave_offset_current s) (slave_offset_measured s)
    (wrap_factor s) v (slave_phase s) (master_value s) (slave_value s)
    (accumulator s) (pwm s).

Definition set_slave_phase (v : Z) (s : state) : state :=
  mkState (master_polarity s) (slave_polarity s) (output s) (master_phase s)
    (phase_inc s) (slave_offset_current s) (slave_offset_measured s)
    (wrap_factor s) (neg_wrap_factor s) v (master_value s) (slave_value s)
    (accumulator s) (pwm s).

Definition set_master_value (v : Z) (s : state) : state :=
  mkState (master_polarity s) (slave_polarity s) (output s) (master_phase s)
    (phase_inc s) (slave_offset_current s) (slave_offset_measured s)
    (wrap_factor s) (neg_wrap_factor s) (slave_phase s) v (slave_value s)
    (accumulator s) (pwm s).

Definition set_slave_value (v : Z) (s : state) : state :=
  mkState (master_polarity s) (slave_polarity s) (output s) (master_phase s)
    (phase_inc s) (slave_offset_current s) (slave_offset_measured s)
    (wrap_factor s) (neg_wrap_factor s) (slave_phase s) (master_value s) v
    (accumulator s) (pwm s).

Definition set_accumulator (v : Z) (s : state) : state :=
  mkState (master_polarity s) (slave_polarity s) (output s) (master_phase s)
    (phase_inc s) (slave_offset_current s) (slave_offset_measured s)
    (wrap_factor s) (neg_wrap_factor s) (slave_phase s) (master_value s)
    (slave_value s) v (pwm s).

Definition set_pwm (v : Z) (s : state) : state :=
  mkState (master_polarity s) (slave_polarity s) (output s) (master_phase s)
    (phase_inc s) (slave_offset_current s) (slave_offset_measured s)
    (wrap_factor s) (neg_wrap_factor s) (slave_phase s) (master_value s)
    (slave_value s) (accumulator s) v.

(** Statements in sequence: [s |> f |> g] runs [f], then [g]. *)
Notation "s |> f" := (f s) (at level 45, left associativity, only parsing).

(** ** The analog inputs *)

(** The four analog inputs.  [wonkystuffCommon.h] names them; the sketch
    maps them to their roles. *)
Inductive knob : Type := wsKnob1 | wsKnob2 | wsKnob3 | wsKnob4.

Definition SLAVE_KNOB : knob := wsKnob3.
Definition WRAP_KNOB : knob := wsKnob2.
Definition PITCH_KNOB : knob := wsKnob1.
Definition PITCH_CV : knob := wsKnob4.

Definition knob_eqb (a b : knob) : bool :=
  match a, b with
  | wsKnob1, wsKnob1 | wsKnob2, wsKnob2
  | wsKnob3, wsKnob3 | wsKnob4, wsKnob4 => true
  | _, _ => false
  end.

(** Every call of [analogRead] starts a conversion of its own, and two
    conversions of one input need not agree.  An expression is therefore
    evaluated against the conversions to come, [adc k n] being the result of
    conversion number [n] of input [k], and counts the conversions it makes
    of each input.  Each input is converted in one statement of [loop] only,
    so the count starts at 0 with the statement.  The order in which C++
    evaluates the two operands of [+] or [<] is not fixed; with one count
    per input it does not matter here. *)
Definition counters : Type := knob -> nat.

Definition conv (A : Type) : Type :=
  (knob -> nat -> Z) -> counters -> A * counters.

Definition ret {A : Type} (x : A) : conv A := fun _ c => (x, c).

Definition bind {A B : Type} (m : conv A) (f : A -> conv B) : conv B :=
  fun adc c => let (x, c') := m adc c in f x adc c'.

Notation "x <- m ;; k" := (bind m (fun x => k))
  (at level 61, m at next level, right associativity).

Definition analogRead (k : knob) : conv Z :=
  fun adc c =>
    (adc k (c k), fun j => if knob_eqb j k then S (c j) else c j).

Definition eval {A : Type} (m : conv A) (adc : knob -> nat -> Z) : A :=
  fst (m adc (fun _ => O)).

(** [Arduino.h] of the AVR cores:
    [#define min(a,b) ((a)<(b)?(a):(b))] and
    [#define max(a,b) ((a)>(b)?(a):(b))].
    Both arguments are evaluated for the comparison and the chosen one is
    evaluated once more for the value. *)
Definition min_ (a b : conv Z) : conv Z :=
  x <- a ;; y <- b ;; if x <? y then a else b.

Definition max_ (a b : conv Z) : conv Z :=
  x <- a ;; y <- b ;; if x >? y then a else b.

(** Readings that do not move: every conversion of an input gives the same
    value. *)
Definition steady (r : knob -> Z) : knob -> nat -> Z := fun k _ => r k.

Definition in_adc (adc : knob -> nat -> Z) : Prop :=
  forall k n, is_adc (adc k n).

(** ** The control-rate sampler, [loop] *)

(** The argument of line 94, an [int]. *)
Definition pitch_expr : conv Z :=
  min_ (ret 1023)
       (cv <- analogRead PITCH_CV ;;
        m <- max_ (ret 0) (k <- analogRead PITCH_KNOB ;; ret (k - 600)) ;;
        ret (cv + m)).

(** [pwmv], the [uint16_t] that line 97 hands to the octave lookup. *)
Definition pitch_reading (adc : knob -> nat -> Z) : Z :=
  u16 (eval pitch_expr adc).

(** The right-hand side of line 105. *)
Definition wrap_expr : conv Z :=
  min_ (r <- analogRead WRAP_KNOB ;; ret (64 + Z.shiftr r 1)) (ret 511).

Section Sampler.

(** [wsFetchOctaveLookup] is declared in [wonkystuffCommon.h]: a table from
    a 10-bit reading to a phase increment. *)
Variable wsFetchOctaveLookup : Z -> Z.
Variable adc : knob -> nat -> Z.

(** Lines 94 and 97. *)
Definition loop_pitch (s : state) : state :=
  let pwmv := pitch_reading adc in
  set_phase_inc (u16 (wsFetchOctaveLookup pwmv)) s.

(** Line 101. *)
Definition loop_slave (s : state) : state :=
  set_slave_offset_measured (u16 (eval (analogRead SLAVE_KNOB) adc)) s.

(** Line 105. *)
Definition loop_wrap (s : state) : state :=
  set_wrap_factor (u16 (eval wrap_expr adc)) s.

(** Line 106. *)
Definition loop_neg (s : state) : state :=
  set_neg_wrap_factor
    (u16 (eval (max_ (ret (Z.shiftr (wrap_factor s) 1)) (ret 64)) adc)) s.

Definition loop (s : state) : state :=
  s |> loop_pitch |> loop_slave |> loop_wrap |> loop_neg.

End Sampler.

(** ** The audio-rate handler, [wsAudioLoop], block by block *)

(** Line 114: the previous sample goes out first. *)
Definition write_pwm (s : state) : state := set_pwm (output s) s.

(** Line 117. *)
Definition advance_phase (s : state) : state :=
  set_master_phase (u16 (master_phase s + phase_inc s)) s.

(** Lines 120-121. *)
Definition smooth_offset (s : state) : state :=
  if slave_offset_current s <? slave_offset_measured s
  then set_slave_offset_current (u16 (slave_offset_current s + 1)) s
  else if slave_offset_current s >? slave_offset_measured s
  then set_slave_offset_current (u16 (slave_offset_current s - 1)) s
  else s.

(** Lines 125-131. *)
Definition master_sine (s : state) : state :=
  s |> (fun s => set_master_value (master_phase s) s)
    |> (fun s => set_master_value (u16 (Z.shiftl (master_value s) 1)) s)
    |> (fun s => set_master_value (Z.shiftr (master_value s) 8) s)
    |> (fun s => set_master_value
                   (u16 (master_value s
                         * Z.land (not16 (master_value s)) 255)) s)
    |> (fun s => set_master_value (u16 (Z.shiftl (master_value s) 2)) s)
    |> (fun s => set_master_value (Z.shiftr (master_value s) 8) s)
    |> (fun s => set_master_polarity
                   (to_bool (Z.land (master_phase s) 32768)) s).

(** Lines 139-145. *)
Definition slave_phase_calc (s : state) : state :=
  s |> (fun s => set_accumulator (master_phase s) s)
    |> (fun s => set_accumulator
                   (u32 (accumulator s * slave_offset_current s)) s)
    |> (fun s => set_accumulator (Z.shiftr (accumulator s) 8) s)
    |> (fun s => set_accumulator (u32 (accumulator s + master_phase s)) s)
    |> (fun s => set_accumulator (Z.land (accumulator s) 65535) s)
    |> (fun s => set_slave_phase (u16 (accumulator s)) s).

(** Lines 148-154. *)
Definition slave_sine (s : state) : state :=
  s |> (fun s => set_slave_value (slave_phase s) s)
    |> (fun s => set_slave_value (u16 (Z.shiftl (slave_value s) 1)) s)
    |> (fun s => set_slave_value (Z.shiftr (slave_value s) 8) s)
    |> (fun s => set_slave_value
                   (u16 (slave_value s
                         * Z.land (not16 (slave_value s)) 255)) s)
    |> (fun s => set_slave_value (u16 (Z.shiftl (slave_value s) 2)) s)
    |> (fun s => set_slave_value (Z.shiftr (slave_value s) 8) s)
    |> (fun s => set_slave_polarity
                   (to_bool (Z.land (slave_phase s) 32768)) s).

(** Lines 158-162. *)
Definition ring_mod (s : state) : state :=
  s |> (fun s => set_master_value (u16 (master_value s * slave_value s)) s)
    |> (fun s => set_master_value (Z.shiftr (master_value s) 8) s)
    |> (fun s => set_master_polarity
                   (xorb (master_polarity s) (slave_polarity s)) s)
    |> (fun s => set_master_value (Z.shiftr (master_value s) 1) s).

(** Line 166. *)
Definition wrap_multiply (s : state) : state :=
  set_master_value
    (u16 (master_value s
          * (if master_polarity s then wrap_factor s else neg_wrap_factor s)))
    s.

(** Lines 170-171. *)
Definition wrap_rescale (s : state) : state :=
  s |> (fun s => set_master_value (u16 (Z.shiftl (master_value s) 2)) s)
    |> (fun s => set_master_value (Z.shiftr (master_value s) 8) s).

(** Lines 175-181. *)
Definition fold_wrap (s : state) : state :=
  if to_bool (Z.land (master_value s) 65280)
  then
    s |> (fun s => if to_bool (Z.land (master_value s) 256)
                   then set_master_polarity (negb (master_polarity s)) s
                   else s)
      |> (fun s => set_master_value (Z.land (master_value s) 255) s)
  else s.

(** Lines 183-186. *)
Definition fold_reflect (s : state) : state :=
  if master_value s >? 127
  then set_master_value (u16 (127 - Z.land (master_value s) 127)) s
  else s.

(** Lines 189-190. *)
Definition make_output (s : state) : state :=
  if master_polarity s
  then set_output (u8 (u16 (127 - master_value s))) s
  else set_output (u8 (u16 (128 + master_value s))) s.

(** The two oscillators (lines 114-154). *)
Definition oscillators (s : state) : state :=
  s |> write_pwm |> advance_phase |> smooth_offset
    |> master_sine |> slave_phase_calc |> slave_sine.

(** The handler up to the wave-folder (lines 114-162). *)
Definition ring_modulated (s : state) : state :=
  s |> oscillators |> ring_mod.

(** The wave-folder (lines 166-186). *)
Definition wave_fold (s : state) : state :=
  s |> wrap_multiply |> wrap_rescale |> fold_wrap |> fold_reflect.

Definition wsAudioLoop (s : state) : state :=
  s |> ring_modulated |> wave_fold |> make_output.

(** [n] samples in a row, the control values left alone. *)
Definition samples (n : nat) (s : state) : state :=
  Nat.iter n wsAudioLoop s.

(** Where the background [loop] stands: the statement it runs next. *)
Inductive loop_pc : Type := at_pitch | at_slave | at_wrap | at_neg.

(** The states the firmware can be in.  [setup] leaves the initial values
    and starts the sample clock; from then on [loop] runs its statements in
    order, round after round, each over conversions in 0..1023, and a sample
    interrupt may fall between any two of them.  A store to a global is
    taken as one step. *)
Inductive reach (wsFetchOctaveLookup : Z -> Z) : loop_pc -> state -> Prop :=
| reach_setup : reach wsFetchOctaveLookup at_pitch initial
| reach_pitch (adc : knob -> nat -> Z) (s : state) :
    in_adc adc -> reach wsFetchOctaveLookup at_pitch s ->
    reach wsFetchOctaveLookup at_slave (loop_pitch wsFetchOctaveLookup adc s)
| reach_slave (adc : knob -> nat -> Z) (s : state) :
    in_adc adc -> reach wsFetchOctaveLookup at_slave s ->
    reach wsFetchOctaveLookup at_wrap (loop_slave adc s)
| reach_wrap (adc : knob -> nat -> Z) (s : state) :
    in_adc adc -> reach wsFetchOctaveLookup at_wrap s ->
    reach wsFetchOctaveLookup at_neg (loop_wrap adc s)
| reach_neg (adc : knob -> nat -> Z) (s : state) :
    in_adc adc -> reach wsFetchOctaveLookup at_neg s ->
    reach wsFetchOctaveLookup at_pitch (loop_neg adc s)
| reach_sample (pc : loop_pc) (s : state) :
    reach wsFetchOctaveLookup pc s ->
    reach wsFetchOctaveLookup pc (wsAudioLoop s).

Definition reachable (wsFetchOctaveLookup : Z -> Z) (s : state) : Prop :=
  exists pc, reach wsFetchOctaveLookup pc s.

(** ** The stages as the specification words them *)

(** Pseudo-sine: x = (P << 1) >> 8, value = x * ((~x) & 255),
    value = (value << 2) >> 8, all on 16 bits. *)
Definition sine_x (P : Z) : Z := Z.shiftr (u16 (Z.shiftl P 1)) 8.

Definition pseudo_sine (P : Z) : Z :=
  let x := sine_x P in
  Z.shiftr (u16 (Z.shiftl (u16 (x * Z.land (not16 x) 255)) 2)) 8.

(** Polarity: the top bit of the phase. *)
Definition polarity (P : Z) : bool := Z.testbit P 15.

(** Hard sync and detune, the product at full precision. *)
Definition slave_of (M S : Z) : Z := (Z.shiftr (M * S) 8 + M) mod 65536.

(** Ring modulation: product, down 8 bits, then halved. *)
Definition ring_magnitude (a b : Z) : Z := Z.shiftr (Z.shiftr (a * b) 8) 1.

(** Fold-back of a value [v] with polarity [p]. *)
Definition fold_back (v : Z) (p : bool) : Z * bool :=
  let '(v1, p1) :=
    if 256 <=? v
    then (v mod 256, if Z.testbit v 8 then negb p else p)
    else (v, p) in
  (if 127 <? v1 then 127 - Z.land v1 127 else v1, p1).

(** Where the smoothed offset stands [n] samples after [c], target [t]. *)
Definition approach (c t : Z) (n : nat) : Z :=
  if c <=? t then Z.min (c + Z.of_nat n) t else Z.max (c - Z.of_nat n) t.

Definition clamp (x lo hi : Z) : Z := Z.max lo (Z.min x hi).

Definition effective_pitch (cv knob_reading : Z) : Z :=
  clamp (cv + Z.max 0 (knob_reading - 600)) 0 1023.

(** Converter readings, knob by knob. *)
Definition readings (k1 k2 k3 k4 : Z) (k : knob) : Z :=
  match k with
  | wsKnob1 => k1 | wsKnob2 => k2 | wsKnob3 => k3 | wsKnob4 => k4
  end.

(** Conversions given one after the other, 0 once the list is through. *)
Definition in_turn (l : list (knob -> Z)) : knob -> nat -> Z :=
  fun k n => nth n l (fun _ => 0) k.

(** The fold input three counts apart between two conversions. *)
Definition noisy_fold : knob -> nat -> Z :=
  in_turn (readings 0 893 0 0 :: readings 0 896 0 0 :: nil).

(** The pitch knob one count apart between conversions, CV at 0. *)
Definition noisy_knob : knob -> nat -> Z :=
  in_turn (readings 600 0 0 0 :: readings 599 0 0 0
           :: readings 600 0 0 0 :: readings 599 0 0 0 :: nil).

(** CV rising from 600 to 700 between its two conversions, the pitch knob
    at 1000. *)
Definition rising_cv : knob -> nat -> Z :=
  in_turn (readings 1000 0 0 600 :: readings 1000 0 0 700
           :: readings 1000 0 0 700 :: readings 1000 0 0 700 :: nil).

(** The wave-folding sentence read with step 9's polarities: the polarity
    that step 9 sends to 128 + value (flag clear) takes WrapFactor, the one
    it sends to 127 - value (flag set) takes NegWrapFactor. *)
Definition folds_by_output_polarity (s : state) : Prop :=
  let r := ring_modulated s in
  (master_polarity r = false ->
   master_value (wrap_multiply r) = u16 (master_value r * wrap_factor r)) /\
  (master_polarity r = true ->
   master_value (wrap_multiply r) = u16 (master_value r * neg_wrap_factor r)).

(** A run to try it on: fold knob fully up, detune knob fully down, an
    octave table that answers 1024, fifteen samples gone by and the
    sixteenth about to run. *)
Definition flat_octave (inc : Z) : Z -> Z := fun _ => inc.

Definition folded_run : state :=
  samples 15 (loop (flat_octave 1024) (steady (readings 0 1023 0 0)) initial).

(** ** Ranges and shapes used further on *)

(** Every global within its C type, the detune values within the
    converter's ten bits, the fold factors within the bounds the clamps of
    lines 105 and 106 aim at. *)
Definition in_range (s : state) : Prop :=
  is_u16 (master_phase s) /\ is_u16 (phase_inc s) /\
  is_adc (slave_offset_current s) /\ is_adc (slave_offset_measured s) /\
  64 <= wrap_factor s <= 511 /\ 64 <= neg_wrap_factor s <= 255 /\
  neg_wrap_factor s <= wrap_factor s /\
  is_u16 (slave_phase s) /\ is_u16 (accumulator s) /\
  0 <= master_value s <= 127 /\ 0 <= slave_value s <= 254 /\
  0 <= output s <= 255 /\ 0 <= pwm s <= 255.


(** A byte folded about the middle of its range. *)
Definition reflect (w : Z) : Z := if w <=? 127 then w else 255 - w.

(** The factor line 166 picks. *)
Definition fold_factor (s : state) : Z :=
  if master_polarity s then wrap_factor s else neg_wrap_factor s.

(** ** Proof tools *)

(** Reading a global back after assignments. *)
Ltac fields :=
  cbn [master_polarity slave_polarity output master_phase phase_inc
       slave_offset_current slave_offset_measured wrap_factor neg_wrap_factor
       slave_phase master_value slave_value accumulator pwm
       set_master_polarity set_slave_polarity set_output set_master_phase
       set_phase_inc set_slave_offset_current set_slave_offset_measured
       set_wrap_factor set_neg_wrap_factor set_slave_phase set_master_value
       set_slave_value set_accumulator set_pwm].

(** Every branch of a block taken in turn. *)
Ltac branches :=
  repeat (match goal with
          | |- context [if ?c then _ else _] => destruct c
          end; fields).

(** Shifts and masks by constants, as division and remainder. *)
Ltac arith :=
  unfold u8, u16, u32 in *;
  rewrite ?Z.shiftl_mul_pow2, ?Z.shiftr_div_pow2 in * by lia;
  change (2 ^ 1) with 2 in *; change (2 ^ 2) with 4 in *;
  change (2 ^ 8) with 256 in *;
  Z.div_mod_to_equations; lia.

(** ** Arithmetic of the fixed-width operations *)

Lemma u16_range (x : Z) : is_u16 (u16 x).
Proof. unfold is_u16. arith. Qed.

Lemma u16_small (x : Z) : is_u16 x -> u16 x = x.
Proof. unfold is_u16. intros H. arith. Qed.

Lemma land_low8 (x : Z) : Z.land x 255 = x mod 256.
Proof. change 255 with (Z.ones 8). now rewrite Z.land_ones by lia. Qed.

Lemma land_low7 (x : Z) : Z.land x 127 = x mod 128.
Proof. change 127 with (Z.ones 7). now rewrite Z.land_ones by lia. Qed.

Lemma land_low16 (x : Z) : Z.land x 65535 = x mod 65536.
Proof. change 65535 with (Z.ones 16). now rewrite Z.land_ones by lia. Qed.

Lemma not16_low (x : Z) : 0 <= x <= 255 -> Z.land (not16 x) 255 = 255 - x.
Proof.
  intros H. rewrite land_low8. unfold not16, Z.lnot. arith.
Qed.

(** A single-bit mask tests that bit. *)
Lemma mask_bit (x n : Z) : 0 <= n -> to_bool (Z.land x (2 ^ n)) = Z.testbit x n.
Proof.
  intros Hn. unfold to_bool.
  destruct (Z.testbit x n) eqn:E.
  - destruct (Z.eqb_spec (Z.land x (2 ^ n)) 0) as [H0|]; [|reflexivity].
    assert (H : Z.testbit (Z.land x (2 ^ n)) n = true)
      by now rewrite Z.land_spec, E, Z.pow2_bits_true.
    rewrite H0, Z.bits_0 in H. discriminate.
  - replace (Z.land x (2 ^ n)) with 0; [reflexivity|].
    symmetry. apply Z.bits_inj'. intros m Hm.
    rewrite Z.land_spec, Z.bits_0, Z.pow2_bits_eqb by lia.
    destruct (Z.eqb_spec n m) as [<-|]; rewrite ?E, ?andb_false_r; reflexivity.
Qed.

(** The high byte of a 16-bit value is non-zero from 256 on. *)
Lemma land_high8 (v : Z) : Z.land v 65280 = 256 * ((v / 256) mod 256).
Proof.
  transitivity (Z.shiftl (Z.land (Z.shiftr v 8) (Z.ones 8)) 8).
  - apply Z.bits_inj'. intros n Hn.
    change 65280 with (Z.shiftl (Z.ones 8) 8).
    rewrite Z.land_spec, !Z.shiftl_spec, Z.land_spec by lia.
    destruct (Z.ltb_spec n 8).
    + rewrite !(Z.testbit_neg_r _ (n - 8)) by lia. now rewrite andb_false_r.
    + rewrite Z.shiftr_spec by lia. now replace (n - 8 + 8) with n by lia.
  - rewrite Z.land_ones, Z.shiftl_mul_pow2, Z.shiftr_div_pow2 by lia.
    change (2 ^ 8) with 256. lia.
Qed.

Lemma high_byte (v : Z) : is_u16 v -> to_bool (Z.land v 65280) = (256 <=? v).
Proof.
  intros H. unfold to_bool, is_u16 in *. rewrite land_high8.
  destruct (Z.eqb_spec (256 * ((v / 256) mod 256)) 0), (Z.leb_spec 256 v);
    try reflexivity; exfalso; Z.div_mod_to_equations; lia.
Qed.

(** ** The pseudo-sine *)

Lemma sine_x_eq (P : Z) : sine_x P = (P mod 32768) / 128.
Proof. unfold sine_x. arith. Qed.

Lemma sine_x_range (P : Z) : 0 <= sine_x P <= 255.
Proof. rewrite sine_x_eq. Z.div_mod_to_equations. lia. Qed.

Lemma parabola_bound (x : Z) : 0 <= x <= 255 -> 0 <= x * (255 - x) <= 16256.
Proof. intros H. assert (x <= 127 \/ 128 <= x) as [|] by lia; nia. Qed.

(** None of the 16-bit operations of the pseudo-sine wraps. *)
Lemma pseudo_sine_eq (P : Z) :
  pseudo_sine P = (sine_x P * (255 - sine_x P)) / 64.
Proof.
  unfold pseudo_sine. cbv zeta.
  pose proof (sine_x_range P) as Hx.
  rewrite not16_low by exact Hx.
  pose proof (parabola_bound _ Hx) as Hb.
  set (y := sine_x P * (255 - sine_x P)) in *. arith.
Qed.

Lemma pseudo_sine_range (P : Z) : 0 <= pseudo_sine P <= 254.
Proof.
  rewrite pseudo_sine_eq.
  pose proof (parabola_bound _ (sine_x_range P)) as Hb.
  set (y := sine_x P * (255 - sine_x P)) in *.
  Z.div_mod_to_equations. lia.
Qed.

Lemma master_sine_value (s : state) :
  master_value (master_sine s) = pseudo_sine (master_phase s).
Proof. reflexivity. Qed.

Lemma master_sine_polarity (s : state) :
  master_polarity (master_sine s) = polarity (master_phase s).
Proof.
  unfold master_sine, polarity. fields. now apply (mask_bit _ 15).
Qed.

Lemma slave_sine_value (s : state) :
  slave_value (slave_sine s) = pseudo_sine (slave_phase s).
Proof. reflexivity. Qed.

Lemma slave_sine_polarity (s : state) :
  slave_polarity (slave_sine s) = polarity (slave_phase s).
Proof.
  unfold slave_sine, polarity. fields. now apply (mask_bit _ 15).
Qed.

(** Clearing bit 15 leaves the low fifteen bits. *)
Lemma clearbit15_low (P : Z) : Z.clearbit P 15 mod 32768 = P mod 32768.
Proof.
  change 32768 with (2 ^ 15). apply Z.bits_inj'. intros n Hn.
  rewrite !Z.testbit_mod_pow2 by lia.
  destruct (Z.ltb_spec n 15); [|reflexivity].
  rewrite Z.clearbit_eqb.
  destruct (Z.eqb_spec 15 n); [lia|]. now rewrite andb_true_r.
Qed.

(** ** Hard sync *)

Lemma slave_phase_calc_spec (s : state) :
  is_u16 (master_phase s) -> is_u16 (slave_offset_current s) ->
  slave_phase (slave_phase_calc s)
  = slave_of (master_phase s) (slave_offset_current s).
Proof.
  unfold is_u16, slave_phase_calc, slave_of. fields. intros HM HS.
  rewrite land_low16.
  assert (0 <= master_phase s * slave_offset_current s <= 65535 * 65535)
    by nia.
  set (p := master_phase s * slave_offset_current s) in *. arith.
Qed.

(** ** Smoothing of the slave offset *)

Lemma smooth_offset_measured (s : state) :
  slave_offset_measured (smooth_offset s) = slave_offset_measured s.
Proof. unfold smooth_offset. branches; reflexivity. Qed.

Lemma smooth_offset_current (s : state) :
  is_u16 (slave_offset_current s) -> is_u16 (slave_offset_measured s) ->
  slave_offset_current (smooth_offset s)
  = approach (slave_offset_current s) (slave_offset_measured s) 1.
Proof.
  unfold is_u16, smooth_offset, approach. intros Hc Ht.
  destruct (Z.ltb_spec (slave_offset_current s) (slave_offset_measured s)),
           (Z.gtb_spec (slave_offset_current s) (slave_offset_measured s)),
           (Z.leb_spec (slave_offset_current s) (slave_offset_measured s));
    fields; try lia; unfold u16; Z.div_mod_to_equations; lia.
Qed.

Lemma approach_range (c t : Z) (n : nat) :
  is_u16 c -> is_u16 t -> is_u16 (approach c t n).
Proof. unfold is_u16, approach. destruct (Z.leb_spec c t); lia. Qed.

Lemma approach_step (c t : Z) (n : nat) :
  approach (approach c t 1) t n = approach c t (S n).
Proof.
  unfold approach.
  destruct (Z.leb_spec c t);
    [destruct (Z.leb_spec (Z.min (c + Z.of_nat 1) t) t)
    |destruct (Z.leb_spec (Z.max (c - Z.of_nat 1) t) t)]; lia.
Qed.


(** ** What each block leaves alone *)

(** Each block of the handler writes one or two globals; the frame lemmas
    list the others.  [frames] pushes a read of an untouched global through
    the blocks. *)

Lemma write_pwm_frame (s : state) :
  master_polarity (write_pwm s) = master_polarity s /\
  slave_polarity (write_pwm s) = slave_polarity s /\
  output (write_pwm s) = output s /\
  master_phase (write_pwm s) = master_phase s /\
  phase_inc (write_pwm s) = phase_inc s /\
  slave_offset_current (write_pwm s) = slave_offset_current s /\
  slave_offset_measured (write_pwm s) = slave_offset_measured s /\
  wrap_factor (write_pwm s) = wrap_factor s /\
  neg_wrap_factor (write_pwm s) = neg_wrap_factor s /\
  slave_phase (write_pwm s) = slave_phase s /\
  master_value (write_pwm s) = master_value s /\
  slave_value (write_pwm s) = slave_value s /\
  accumulator (write_pwm s) = accumulator s.
Proof.
  unfold write_pwm. fields. branches; repeat split; reflexivity.
Qed.

Lemma advance_phase_frame (s : state) :
  master_polarity (advance_phase s) = master_polarity s /\
  slave_polarity (advance_phase s) = slave_polarity s /\
  output (advance_phase s) = output s /\
  phase_inc (advance_phase s) = phase_inc s /\
  slave_offset_current (advance_phase s) = slave_offset_current s /\
  slave_offset_measured (advance_phase s) = slave_offset_measured s /\
  wrap_factor (advance_phase s) = wrap_factor s /\
  neg_wrap_factor (advance_phase s) = neg_wrap_factor s /\
  slave_phase (advance_phase s) = slave_phase s /\
  master_value (advance_phase s) = master_value s /\
  slave_value (advance_phase s) = slave_value s /\
  accumulator (advance_phase s) = accumulator s /\
  pwm (advance_phase s) = pwm s.
Proof.
  unfold advance_phase. fields. branches; repeat split; reflexivity.
Qed.

Lemma smooth_offset_frame (s : state) :
  master_polarity (smooth_offset s) = master_polarity s /\
  slave_polarity (smooth_offset s) = slave_polarity s /\
  output (smooth_offset s) = output s /\
  master_phase (smooth_offset s) = master_phase s /\
  phase_inc (smooth_offset s) = phase_inc s /\
  slave_offset_measured (smooth_offset s) = slave_offset_measured s /\
  wrap_factor (smooth_offset s) = wrap_factor s /\
  neg_wrap_factor (smooth_offset s) = neg_wrap_factor s /\
  slave_phase (smooth_offset s) = slave_phase s /\
  master_value (smooth_offset s) = master_value s /\
  slave_value (smooth_offset s) = slave_value s /\
  accumulator (smooth_offset s) = accumulator s /\
  pwm (smooth_offset s) = pwm s.
Proof.
  unfold smooth_offset. fields. branches; repeat split; reflexivity.
Qed.

Lemma master_sine_frame (s : state) :
  slave_polarity (master_sine s) = slave_polarity s /\
  output (master_sine s) = output s /\
  master_phase (master_sine s) = master_phase s /\
  phase_inc (master_sine s) = phase_inc s /\
  slave_offset_current (master_sine s) = slave_offset_current s /\
  slave_offset_measured (master_sine s) = slave_offset_measured s /\
  wrap_factor (master_sine s) = wrap_factor s /\
  neg_wrap_factor (master_sine s) = neg_wrap_factor s /\
  slave_phase (master_sine s) = slave_phase s /\
  slave_value (master_sine s) = slave_value s /\
  accumulator (master_sine s) = accumulator s /\ pwm (master_sine s) = pwm s.
Proof.
  unfold master_sine. fields. branches; repeat split; reflexivity.
Qed.

Lemma slave_phase_calc_frame (s : state) :
  master_polarity (slave_phase_calc s) = master_polarity s /\
  slave_polarity (slave_phase_calc s) = slave_polarity s /\
  output (slave_phase_calc s) = output s /\
  master_phase (slave_phase_calc s) = master_phase s /\
  phase_inc (slave_phase_calc s) = phase_inc s /\
  slave_offset_current (slave_phase_calc s) = slave_offset_current s /\
  slave_offset_measured (slave_phase_calc s) = slave_offset_measured s /\
  wrap_factor (slave_phase_calc s) = wrap_factor s /\
  neg_wrap_factor (slave_phase_calc s) = neg_wrap_factor s /\
  master_value (slave_phase_calc s) = master_value s /\
  slave_value (slave_phase_calc s) = slave_value s /\
  pwm (slave_phase_calc s) = pwm s.
Proof.
  unfold slave_phase_calc. fields. branches; repeat split; reflexivity.
Qed.

Lemma slave_sine_frame (s : state) :
  master_polarity (slave_sine s) = master_polarity s /\
  output (slave_sine s) = output s /\
  master_phase (slave_sine s) = master_phase s /\
  phase_inc (slave_sine s) = phase_inc s /\
  slave_offset_current (slave_sine s) = slave_offset_current s /\
  slave_offset_measured (slave_sine s) = slave_offset_measured s /\
  wrap_factor (slave_sine s) = wrap_factor s /\
  neg_wrap_factor (slave_sine s) = neg_wrap_factor s /\
  slave_phase (slave_sine s) = slave_phase s /\
  master_value (slave_sine s) = master_value s /\
  accumulator (slave_sine s) = accumulator s /\ pwm (slave_sine s) = pwm s.
Proof.
  unfold slave_sine. fields. branches; repeat split; reflexivity.
Qed.

Lemma ring_mod_frame (s : state) :
  slave_polarity (ring_mod s) = slave_polarity s /\
  output (ring_mod s) = output s /\
  master_phase (ring_mod s) = master_phase s /\
  phase_inc (ring_mod s) = phase_inc s /\
  slave_offset_current (ring_mod s) = slave_offset_current s /\
  slave_offset_measured (ring_mod s) = slave_offset_measured s /\
  wrap_factor (ring_mod s) = wrap_factor s /\
  neg_wrap_factor (ring_mod s) = neg_wrap_factor s /\
  slave_phase (ring_mod s) = slave_phase s /\
  slave_value (ring_mod s) = slave_value s /\
  accumulator (ring_mod s) = accumulator s /\ pwm (ring_mod s) = pwm s.
Proof.
  unfold ring_mod. fields. branches; repeat split; reflexivity.
Qed.

Lemma wrap_multiply_frame (s : state) :
  master_polarity (wrap_multiply s) = master_polarity s /\
  slave_polarity (wrap_multiply s) = slave_polarity s /\
  output (wrap_multiply s) = output s /\
  master_phase (wrap_multiply s) = master_phase s /\
  phase_inc (wrap_multiply s) = phase_inc s /\
  slave_offset_current (wrap_multiply s) = slave_offset_current s /\
  slave_offset_measured (wrap_multiply s) = slave_offset_measured s /\
  wrap_factor (wrap_multiply s) = wrap_factor s /\
  neg_wrap_factor (wrap_multiply s) = neg_wrap_factor s /\
  slave_phase (wrap_multiply s) = slave_phase s /\
  slave_value (wrap_multiply s) = slave_value s /\
  accumulator (wrap_multiply s) = accumulator s /\
  pwm (wrap_multiply s) = pwm s.
Proof.
  unfold wrap_multiply. fields. branches; repeat split; reflexivity.
Qed.

Lemma wrap_rescale_frame (s : state) :
  master_polarity (wrap_rescale s) = master_polarity s /\
  slave_polarity (wrap_rescale s) = slave_polarity s /\
  output (wrap_rescale s) = output s /\
  master_phase (wrap_rescale s) = master_phase s /\
  phase_inc (wrap_rescale s) = phase_inc s /\
  slave_offset_current (wrap_rescale s) = slave_offset_current s /\
  slave_offset_measured (wrap_rescale s) = slave_offset_measured s /\
  wrap_factor (wrap_rescale s) = wrap_factor s /\
  neg_wrap_factor (wrap_rescale s) = neg_wrap_factor s /\
  slave_phase (wrap_rescale s) = slave_phase s /\
  slave_value (wrap_rescale s) = slave_value s /\
  accumulator (wrap_rescale s) = accumulator s /\
  pwm (wrap_rescale s) = pwm s.
Proof.
  unfold wrap_rescale. fields. branches; repeat split; reflexivity.
Qed.

Lemma fold_wrap_frame (s : state) :
  slave_polarity (fold_wrap s) = slave_polarity s /\
  output (fold_wrap s) = output s /\
  master_phase (fold_wrap s) = master_phase s /\
  phase_inc (fold_wrap s) = phase_inc s /\
  slave_offset_current (fold_wrap s) = slave_offset_current s /\
  slave_offset_measured (fold_wrap s) = slave_offset_measured s /\
  wrap_factor (fold_wrap s) = wrap_factor s /\
  neg_wrap_factor (fold_wrap s) = neg_wrap_factor s /\
  slave_phase (fold_wrap s) = slave_phase s /\
  slave_value (fold_wrap s) = slave_value s /\
  accumulator (fold_wrap s) = accumulator s /\ pwm (fold_wrap s) = pwm s.
Proof.
  unfold fold_wrap. fields. branches; repeat split; reflexivity.
Qed.

Lemma fold_reflect_frame (s : state) :
  master_polarity (fold_reflect s) = master_polarity s /\
  slave_polarity (fold_reflect s) = slave_polarity s /\
  output (fold_reflect s) = output s /\
  master_phase (fold_reflect s) = master_phase s /\
  phase_inc (fold_reflect s) = phase_inc s /\
  slave_offset_current (fold_reflect s) = slave_offset_current s /\
  slave_offset_measured (fold_reflect s) = slave_offset_measured s /\
  wrap_factor (fold_reflect s) = wrap_factor s /\
  neg_wrap_factor (fold_reflect s) = neg_wrap_factor s /\
  slave_phase (fold_reflect s) = slave_phase s /\
  slave_value (fold_reflect s) = slave_value s /\
  accumulator (fold_reflect s) = accumulator s /\
  pwm (fold_reflect s) = pwm s.
Proof.
  unfold fold_reflect. fields. branches; repeat split; reflexivity.
Qed.

Lemma make_output_frame (s : state) :
  master_polarity (make_output s) = master_polarity s /\
  slave_polarity (make_output s) = slave_polarity s /\
  master_phase (make_output s) = master_phase s /\
  phase_inc (make_output s) = phase_inc s /\
  slave_offset_current (make_output s) = slave_offset_current s /\
  slave_offset_measured (make_output s) = slave_offset_measured s /\
  wrap_factor (make_output s) = wrap_factor s /\
  neg_wrap_factor (make_output s) = neg_wrap_factor s /\
  slave_phase (make_output s) = slave_phase s /\
  master_value (make_output s) = master_value s /\
  slave_value (make_output s) = slave_value s /\
  accumulator (make_output s) = accumulator s /\ pwm (make_output s) = pwm s.
Proof.
  unfold make_output. case_eq (master_polarity s); intros E; fields;
    rewrite ?E; repeat split; reflexivity.
Qed.

Ltac frame_with L :=
  let H := fresh "F" in
  pose proof L as H;
  repeat match type of H with
         | _ /\ _ =>
             let E := fresh "E" in
             destruct H as [E H]; rewrite ?E; clear E
         end;
  rewrite ?H; clear H.

Ltac frame_step :=
  match goal with
  | |- context [write_pwm ?X] => progress (frame_with (write_pwm_frame X))
  | |- context [advance_phase ?X] => progress (frame_with (advance_phase_frame X))
  | |- context [smooth_offset ?X] => progress (frame_with (smooth_offset_frame X))
  | |- context [master_sine ?X] => progress (frame_with (master_sine_frame X))
  | |- context [slave_phase_calc ?X] => progress (frame_with (slave_phase_calc_frame X))
  | |- context [slave_sine ?X] => progress (frame_with (slave_sine_frame X))
  | |- context [ring_mod ?X] => progress (frame_with (ring_mod_frame X))
  | |- context [wrap_multiply ?X] => progress (frame_with (wrap_multiply_frame X))
  | |- context [wrap_rescale ?X] => progress (frame_with (wrap_rescale_frame X))
  | |- context [fold_wrap ?X] => progress (frame_with (fold_wrap_frame X))
  | |- context [fold_reflect ?X] => progress (frame_with (fold_reflect_frame X))
  | |- context [make_output ?X] => progress (frame_with (make_output_frame X))
  end.

Ltac frames := repeat frame_step.

(** ** What a sample interrupt leaves in each global *)

Lemma oscillators_master_phase (s : state) :
  master_phase (oscillators s) = u16 (master_phase s + phase_inc s).
Proof. unfold oscillators. frames. unfold advance_phase. fields. now frames. Qed.

Lemma oscillators_offset_current (s : state) :
  slave_offset_current (oscillators s) = slave_offset_current (smooth_offset s).
Proof.
  unfold oscillators. frames. unfold smooth_offset. frames.
  branches; fields; now frames.
Qed.

Lemma oscillators_controls (s : state) :
  slave_offset_measured (oscillators s) = slave_offset_measured s /\
  wrap_factor (oscillators s) = wrap_factor s /\
  neg_wrap_factor (oscillators s) = neg_wrap_factor s /\
  phase_inc (oscillators s) = phase_inc s /\
  output (oscillators s) = output s.
Proof. unfold oscillators. frames. repeat split; reflexivity. Qed.

Lemma oscillators_offset_range (s : state) :
  is_u16 (slave_offset_current s) ->
  is_u16 (slave_offset_current (oscillators s)).
Proof.
  intros H. rewrite oscillators_offset_current. unfold smooth_offset.
  branches; auto using u16_range.
Qed.

Lemma oscillators_master_value (s : state) :
  master_value (oscillators s) = pseudo_sine (master_phase (oscillators s)).
Proof. unfold oscillators. frames. rewrite master_sine_value. now frames. Qed.

Lemma oscillators_master_polarity (s : state) :
  master_polarity (oscillators s) = polarity (master_phase (oscillators s)).
Proof. unfold oscillators. frames. rewrite master_sine_polarity. now frames. Qed.

Lemma oscillators_slave_value (s : state) :
  slave_value (oscillators s) = pseudo_sine (slave_phase (oscillators s)).
Proof. unfold oscillators. frames. apply slave_sine_value. Qed.

Lemma oscillators_slave_polarity (s : state) :
  slave_polarity (oscillators s) = polarity (slave_phase (oscillators s)).
Proof. unfold oscillators. frames. apply slave_sine_polarity. Qed.

Lemma oscillators_slave_phase (s : state) :
  is_u16 (slave_offset_current s) ->
  slave_phase (oscillators s)
  = slave_of (master_phase (oscillators s))
             (slave_offset_current (oscillators s)).
Proof.
  intros H. pose proof (oscillators_offset_range s H) as Hc.
  pose proof (u16_range (master_phase s + phase_inc s)) as HM.
  rewrite <- oscillators_master_phase in HM.
  revert Hc HM. unfold oscillators. frames. intros Hc HM.
  rewrite slave_phase_calc_spec; frames; auto.
Qed.

(** The ring modulator, the wave-folder and the output stage write only
    [master_value], [master_polarity] and [output]. *)
Lemma finish_frame (r : state) :
  let s' := make_output (wave_fold (ring_mod r)) in
  master_phase s' = master_phase r /\ phase_inc s' = phase_inc r /\
  slave_offset_current s' = slave_offset_current r /\
  slave_offset_measured s' = slave_offset_measured r /\
  wrap_factor s' = wrap_factor r /\ neg_wrap_factor s' = neg_wrap_factor r /\
  slave_phase s' = slave_phase r /\ slave_value s' = slave_value r /\
  slave_polarity s' = slave_polarity r /\ accumulator s' = accumulator r /\
  pwm s' = pwm r.
Proof. unfold wave_fold. cbv zeta. frames. repeat split; reflexivity. Qed.

Lemma wsAudioLoop_offset_current (s : state) :
  slave_offset_current (wsAudioLoop s) = slave_offset_current (smooth_offset s).
Proof.
  rewrite <- oscillators_offset_current.
  apply (finish_frame (oscillators s)).
Qed.

Lemma wsAudioLoop_offset_measured (s : state) :
  slave_offset_measured (wsAudioLoop s) = slave_offset_measured s.
Proof.
  rewrite <- (proj1 (oscillators_controls s)).
  apply (finish_frame (oscillators s)).
Qed.

(** Splitting a conjunction, equations left whole. *)
Ltac conjs := repeat match goal with |- _ /\ _ => split end.

Lemma wsAudioLoop_oscillators (s : state) :
  let s' := wsAudioLoop s in
  let o := oscillators s in
  master_phase s' = master_phase o /\
  slave_offset_current s' = slave_offset_current o /\
  slave_phase s' = slave_phase o /\ slave_value s' = slave_value o /\
  slave_polarity s' = slave_polarity o /\
  wrap_factor s' = wrap_factor s /\ neg_wrap_factor s' = neg_wrap_factor s.
Proof.
  cbv zeta. unfold wsAudioLoop, ring_modulated, wave_fold. frames.
  destruct (oscillators_controls s) as (_ & -> & -> & _).
  conjs; reflexivity.
Qed.

(** ** The oscillators *)

(** C1. For every phase value P the pseudo-sine block computes, on 16 bits,
    ((x * ((~x) & 255)) << 2) >> 8 with x = ((P << 1) mod 2^16) >> 8, and
    takes bit 15 of P as the polarity; the master block (lines 125-131) and
    the slave block (lines 148-154) do so alike, each on its own phase, and
    so do they inside a whole sample interrupt. *)
Theorem pseudo_sine_both_oscillators (s : state) (P : Z) :
  polarity P = Z.testbit P 15 /\
  (master_value (master_sine s) = pseudo_sine (master_phase s) /\
   master_polarity (master_sine s) = polarity (master_phase s)) /\
  (slave_value (slave_sine s) = pseudo_sine (slave_phase s) /\
   slave_polarity (slave_sine s) = polarity (slave_phase s)) /\
  (let o := oscillators s in
   master_value o = pseudo_sine (master_phase o) /\
   master_polarity o = polarity (master_phase o) /\
   slave_value o = pseudo_sine (slave_phase o) /\
   slave_polarity o = polarity (slave_phase o)).
Proof.
  cbv zeta. conjs.
  - reflexivity.
  - apply master_sine_value.
  - apply master_sine_polarity.
  - apply slave_sine_value.
  - apply slave_sine_polarity.
  - apply oscillators_master_value.
  - apply oscillators_master_polarity.
  - apply oscillators_slave_value.
  - apply oscillators_slave_polarity.
Qed.

Lemma smooth_offset_depends (s t : state) :
  slave_offset_current t = slave_offset_current s ->
  slave_offset_measured t = slave_offset_measured s ->
  slave_offset_current (smooth_offset t)
  = slave_offset_current (smooth_offset s).
Proof.
  intros Hc Hm. unfold smooth_offset. rewrite Hc, Hm.
  branches; rewrite ?Hc; reflexivity.
Qed.

Lemma slave_of_div (M S : Z) :
  slave_of M S = (M * S / 256 + M) mod 65536.
Proof.
  unfold slave_of. rewrite Z.shiftr_div_pow2 by lia. reflexivity.
Qed.

(** C2. With the slave offset a 16-bit value (0..1023 in particular), the
    slave phase a sample interrupt leaves is ((M * S) >> 8) + M modulo 65536
    for the master phase M and the smoothed offset S of that sample, the
    product taken in full; and it is the same from any two states that agree
    on the master phase, the phase increment and the two offsets, whatever
    the slave phase stood at before. *)
Theorem slave_phase_from_master (s : state) :
  is_u16 (slave_offset_current s) ->
  let s' := wsAudioLoop s in
  slave_phase s'
  = (master_phase s' * slave_offset_current s' / 256 + master_phase s')
    mod 65536 /\
  forall t : state,
    master_phase t = master_phase s -> phase_inc t = phase_inc s ->
    slave_offset_current t = slave_offset_current s ->
    slave_offset_measured t = slave_offset_measured s ->
    slave_phase (wsAudioLoop t) = slave_phase s'.
Proof.
  intros H. cbv zeta.
  assert (E : forall u, is_u16 (slave_offset_current u) ->
                slave_phase (wsAudioLoop u)
                = slave_of (u16 (master_phase u + phase_inc u))
                           (slave_offset_current (smooth_offset u))).
  { intros u Hu.
    destruct (wsAudioLoop_oscillators u) as (_ & _ & -> & _).
    rewrite oscillators_slave_phase by exact Hu.
    now rewrite oscillators_master_phase, oscillators_offset_current. }
  split.
  - destruct (wsAudioLoop_oscillators s) as (-> & -> & _).
    rewrite <- slave_of_div, oscillators_master_phase,
      oscillators_offset_current.
    now apply E.
  - intros t HM HI HC HT. rewrite !E by (rewrite ?HC; exact H).
    now rewrite HM, HI, (smooth_offset_depends s t HC HT).
Qed.

Lemma slave_phase_from_master_witness :
  is_u16 (slave_offset_current initial) /\
  slave_phase (wsAudioLoop initial)
  = (master_phase (wsAudioLoop initial)
     * slave_offset_current (wsAudioLoop initial) / 256
     + master_phase (wsAudioLoop initial)) mod 65536.
Proof.
  assert (H : is_u16 (slave_offset_current initial))
    by (unfold is_u16; simpl; lia).
  split; [exact H | exact (proj1 (slave_phase_from_master initial H))].
Defined.

(** C8. The pseudo-sine of a phase and of the same phase with bit 15 cleared
    are equal; only the polarity, which is bit 15, tells them apart: it is
    clear for the cleared phase.  The master block gives the same magnitude
    from two states whose master phases differ in bit 15 alone. *)
Theorem pseudo_sine_ignores_bit15 (P : Z) :
  pseudo_sine (Z.clearbit P 15) = pseudo_sine P /\
  polarity (Z.clearbit P 15) = false /\
  forall s t : state,
    master_phase s = P -> master_phase t = Z.clearbit P 15 ->
    master_value (master_sine t) = master_value (master_sine s) /\
    master_polarity (master_sine t) = false /\
    master_polarity (master_sine s) = polarity P.
Proof.
  assert (E : pseudo_sine (Z.clearbit P 15) = pseudo_sine P).
  { rewrite !pseudo_sine_eq, !sine_x_eq. now rewrite clearbit15_low. }
  assert (B : polarity (Z.clearbit P 15) = false).
  { unfold polarity. rewrite Z.clearbit_eqb, Z.eqb_refl.
    apply andb_false_r. }
  conjs; try assumption.
  intros s t Hs Ht.
  rewrite !master_sine_value, !master_sine_polarity, Hs, Ht.
  conjs; try assumption; reflexivity.
Qed.

(** ** Ring modulation *)

Lemma ring_mod_value (s : state) :
  master_value (ring_mod s)
  = Z.shiftr (Z.shiftr (u16 (master_value s * slave_value s)) 8) 1.
Proof. reflexivity. Qed.

Lemma ring_mod_polarity (s : state) :
  master_polarity (ring_mod s)
  = xorb (master_polarity s) (slave_polarity s).
Proof. reflexivity. Qed.

Lemma ring_product (a b : Z) :
  0 <= a <= 254 -> 0 <= b <= 254 ->
  0 <= a * b <= 64516 /\ u16 (a * b) = a * b /\
  0 <= Z.shiftr (Z.shiftr (a * b) 8) 1 <= 126.
Proof.
  intros Ha Hb. assert (Hp : 0 <= a * b <= 64516) by nia.
  set (p := a * b) in *. conjs; try lia; arith.
Qed.

(** C9. The pseudo-sine never exceeds 254; so in every sample interrupt the
    product of the two magnitudes is at most 64516, the 16-bit
    multiplication of line 158 does not wrap, and the halved magnitude that
    enters the wave-folder is at most 126. *)
Theorem ring_modulation_bounds (P : Z) (s : state) :
  0 <= pseudo_sine P <= 254 /\
  (let o := oscillators s in
   0 <= master_value o <= 254 /\ 0 <= slave_value o <= 254 /\
   0 <= master_value o * slave_value o <= 64516 /\
   u16 (master_value o * slave_value o) = master_value o * slave_value o /\
   master_value (ring_modulated s)
   = ring_magnitude (master_value o) (slave_value o) /\
   0 <= master_value (ring_modulated s) <= 126).
Proof.
  split; [apply pseudo_sine_range|]. cbv zeta.
  assert (Hm : 0 <= master_value (oscillators s) <= 254)
    by (rewrite oscillators_master_value; apply pseudo_sine_range).
  assert (Hs : 0 <= slave_value (oscillators s) <= 254)
    by (rewrite oscillators_slave_value; apply pseudo_sine_range).
  destruct (ring_product _ _ Hm Hs) as (Hp & Hw & Hr).
  unfold ring_modulated, ring_magnitude. rewrite ring_mod_value, Hw.
  conjs; try lia; reflexivity.
Qed.

(** ** The wave-folder *)

Lemma wrap_rescale_range (s : state) :
  0 <= master_value (wrap_rescale s) <= 255.
Proof.
  unfold wrap_rescale. fields.
  generalize (Z.shiftl (master_value s) 2). intros y. arith.
Qed.

Lemma fold_wrap_value (s : state) :
  is_u16 (master_value s) ->
  master_value (fold_wrap s)
  = (if 256 <=? master_value s then master_value s mod 256
     else master_value s).
Proof.
  intros H. unfold fold_wrap. rewrite (high_byte _ H).
  destruct (256 <=? master_value s); [|reflexivity].
  destruct (to_bool (Z.land (master_value s) 256)); fields; apply land_low8.
Qed.

Lemma fold_wrap_polarity (s : state) :
  is_u16 (master_value s) ->
  master_polarity (fold_wrap s)
  = (if 256 <=? master_value s
     then if Z.testbit (master_value s) 8
          then negb (master_polarity s) else master_polarity s
     else master_polarity s).
Proof.
  intros H. unfold fold_wrap. rewrite (high_byte _ H).
  destruct (256 <=? master_value s); [|reflexivity].
  pose proof (mask_bit (master_value s) 8) as B.
  change (2 ^ 8) with 256 in B. rewrite B by lia.
  destruct (Z.testbit (master_value s) 8); fields; reflexivity.
Qed.

(** After the rescale of lines 170-171 nothing is left above bit 7. *)
Lemma fold_wrap_small (s : state) :
  0 <= master_value s <= 255 -> fold_wrap s = s.
Proof.
  intros H. unfold fold_wrap.
  rewrite high_byte by (unfold is_u16; lia).
  destruct (Z.leb_spec 256 (master_value s)); [lia | reflexivity].
Qed.

Lemma fold_reflect_value (s : state) :
  master_value (fold_reflect s)
  = (if 127 <? master_value s then 127 - Z.land (master_value s) 127
     else master_value s).
Proof.
  unfold fold_reflect. rewrite Z.gtb_ltb.
  destruct (127 <? master_value s); [|reflexivity].
  fields. rewrite land_low7. arith.
Qed.

Lemma fold_reflect_polarity (s : state) :
  master_polarity (fold_reflect s) = master_polarity s.
Proof. apply fold_reflect_frame. Qed.

Lemma fold_reflect_range (s : state) :
  0 <= master_value s -> 0 <= master_value (fold_reflect s) <= 127.
Proof.
  intros H. rewrite fold_reflect_value, land_low7.
  destruct (Z.ltb_spec 127 (master_value s)); [|lia].
  Z.div_mod_to_equations. lia.
Qed.

Lemma fold_reflect_small (s : state) :
  master_value s <= 127 -> fold_reflect s = s.
Proof.
  intros H. unfold fold_reflect.
  destruct (Z.gtb_spec (master_value s) 127); [lia | reflexivity].
Qed.

Lemma make_output_value (s : state) :
  0 <= master_value s <= 127 ->
  output (make_output s)
  = (if master_polarity s then 127 - master_value s
     else 128 + master_value s).
Proof.
  intros H. unfold make_output.
  destruct (master_polarity s); fields; arith.
Qed.

Lemma make_output_keeps (s : state) :
  master_value (make_output s) = master_value s /\
  master_polarity (make_output s) = master_polarity s.
Proof.
  split; [apply (make_output_frame s)|].
  apply (proj1 (make_output_frame s)).
Qed.

(** C4. For a 16-bit value v and a polarity p at line 175: from 256 on, the
    polarity is inverted exactly when bit 8 of v is set and v becomes
    v mod 256; then a value above 127 becomes 127 - (value & 127).  A value
    in 0..127 leaves both steps as it entered, polarity and all. *)
Theorem fold_back_stage (s : state) :
  is_u16 (master_value s) ->
  let f := fold_reflect (fold_wrap s) in
  (master_value f, master_polarity f)
  = fold_back (master_value s) (master_polarity s) /\
  (master_value s <= 127 -> f = s).
Proof.
  intros H. cbv zeta. split.
  - rewrite fold_reflect_value, fold_reflect_polarity,
      fold_wrap_value, fold_wrap_polarity by exact H.
    unfold fold_back.
    destruct (256 <=? master_value s); reflexivity.
  - intros Hs. unfold is_u16 in H.
    rewrite fold_wrap_small by lia. now apply fold_reflect_small.
Qed.

Lemma fold_back_stage_witness :
  let s := set_master_value 300 initial in
  is_u16 (master_value s) /\
  (master_value (fold_reflect (fold_wrap s)),
   master_polarity (fold_reflect (fold_wrap s))) = (44, true).
Proof.
  cbv zeta.
  assert (H : is_u16 (master_value (set_master_value 300 initial)))
    by (unfold is_u16; simpl; lia).
  split; [exact H|].
  rewrite (proj1 (fold_back_stage _ H)). reflexivity.
Defined.

(** The wave-folder on a whole sample: what it leaves for the output
    stage. *)
Lemma wave_fold_result (r : state) :
  0 <= master_value (wave_fold r) <= 127 /\
  master_polarity (wave_fold r) = master_polarity r.
Proof.
  unfold wave_fold.
  pose proof (wrap_rescale_range (wrap_multiply r)) as Hv.
  rewrite (fold_wrap_small _ Hv).
  split; [apply fold_reflect_range; lia|].
  rewrite fold_reflect_polarity.
  rewrite (proj1 (wrap_rescale_frame _)).
  apply (proj1 (wrap_multiply_frame r)).
Qed.

(** Lines 170-171 leave at most 255, so within a sample interrupt the test
    of line 175 is never met: lines 178 and 180 do not run. *)
Lemma fold_wrap_idle (s : state) :
  let r := wrap_rescale (wrap_multiply (ring_modulated s)) in
  to_bool (Z.land (master_value r) 65280) = false /\ fold_wrap r = r.
Proof.
  cbv zeta. generalize (wrap_multiply (ring_modulated s)). intros m.
  pose proof (wrap_rescale_range m) as Hv.
  split; [|now apply fold_wrap_small].
  rewrite high_byte by (unfold is_u16; lia).
  destruct (Z.leb_spec 256 (master_value (wrap_rescale m))); [lia|reflexivity].
Qed.

Lemma wsAudioLoop_output (s : state) :
  let s' := wsAudioLoop s in
  0 <= master_value s' <= 127 /\
  master_polarity s' = master_polarity (ring_modulated s) /\
  output s'
  = (if master_polarity s' then 127 - master_value s'
     else 128 + master_value s').
Proof.
  cbv zeta. unfold wsAudioLoop.
  generalize (ring_modulated s). intros r.
  destruct (wave_fold_result r) as [Hv Hp].
  destruct (make_output_keeps (wave_fold r)) as [-> ->].
  rewrite (make_output_value _ Hv). conjs; try lia; auto.
Qed.

(** C10. After the wave-folder the value is at most 127 in every sample
    interrupt, so 128 + value and 127 - value stay within a byte: the output
    is 128 + value, in 128..255, exactly when the final polarity flag is
    clear, and 127 - value, in 0..127, exactly when it is set. *)
Theorem output_stays_in_byte (s : state) :
  let s' := wsAudioLoop s in
  0 <= master_value s' <= 127 /\
  output s'
  = (if master_polarity s' then 127 - master_value s'
     else 128 + master_value s') /\
  (128 <= output s' <= 255 <-> master_polarity s' = false) /\
  (0 <= output s' <= 127 <-> master_polarity s' = true).
Proof.
  cbv zeta. destruct (wsAudioLoop_output s) as (Hv & _ & Ho).
  conjs; try lia; try exact Ho;
    revert Ho; destruct (master_polarity (wsAudioLoop s));
    intros; try lia; try reflexivity; try discriminate.
Qed.

Lemma wrap_multiply_value (r : state) :
  master_value (wrap_multiply r)
  = u16 (master_value r
         * (if master_polarity r then wrap_factor r else neg_wrap_factor r)).
Proof. reflexivity. Qed.

Lemma ring_modulated_controls (s : state) :
  wrap_factor (ring_modulated s) = wrap_factor s /\
  neg_wrap_factor (ring_modulated s) = neg_wrap_factor s.
Proof.
  unfold ring_modulated. frames.
  destruct (oscillators_controls s) as (_ & -> & -> & _). now split.
Qed.

(** C3, amended. In every sample interrupt the ring-modulated magnitude is
    multiplied by WrapFactor when the polarity flag is set and by
    NegWrapFactor when it is clear; the wave-folder hands the flag on as it
    found it, and the output stage turns the set flag into 127 - value and
    the clear flag into 128 + value. *)
Theorem wrap_factor_by_flag (s : state) :
  let r := ring_modulated s in
  let s' := wsAudioLoop s in
  master_value (wrap_multiply r)
  = u16 (master_value r
         * (if master_polarity r then wrap_factor s else neg_wrap_factor s))
  /\ master_polarity s' = master_polarity r
  /\ output s'
     = (if master_polarity r then 127 - master_value s'
        else 128 + master_value s').
Proof.
  cbv zeta. destruct (wsAudioLoop_output s) as (_ & Hp & Ho).
  destruct (ring_modulated_controls s) as [Hw Hn].
  rewrite wrap_multiply_value, Hw, Hn, <- Hp. conjs; auto.
Qed.

Lemma samples_S (n : nat) (s : state) :
  samples (S n) s = samples n (wsAudioLoop s).
Proof. unfold samples. apply Nat.iter_succ_r. Qed.

Lemma reach_samples (octave : Z -> Z) (n : nat) :
  forall pc s, reach octave pc s -> reach octave pc (samples n s).
Proof.
  induction n as [|n IH]; intros pc s H; [exact H|].
  rewrite samples_S. apply IH. now apply reach_sample.
Qed.

Lemma reach_loop (octave : Z -> Z) (adc : knob -> nat -> Z) (s : state) :
  in_adc adc -> reach octave at_pitch s ->
  reach octave at_pitch (loop octave adc s).
Proof.
  intros Ha H. unfold loop.
  apply reach_neg; [exact Ha|]. apply reach_wrap; [exact Ha|].
  apply reach_slave; [exact Ha|]. apply reach_pitch; [exact Ha|]. exact H.
Qed.

Lemma readings_adc (k1 k2 k3 k4 : Z) :
  is_adc k1 -> is_adc k2 -> is_adc k3 -> is_adc k4 ->
  forall k, is_adc (readings k1 k2 k3 k4 k).
Proof. intros H1 H2 H3 H4 [| | |]; assumption. Qed.

Lemma steady_in_adc (r : knob -> Z) :
  (forall k, is_adc (r k)) -> in_adc (steady r).
Proof. intros H k n. apply H. Qed.

Lemma folded_run_reachable : reachable (flat_octave 1024) folded_run.
Proof.
  exists at_pitch. unfold folded_run. apply reach_samples, reach_loop.
  - apply steady_in_adc, readings_adc; unfold is_adc; lia.
  - apply reach_setup.
Qed.

(** C3 as worded fails on the sixteenth sample of [folded_run]: the flag is
    clear, the output is 128 + value, and the magnitude 126 has been
    multiplied by NegWrapFactor = 255, not by WrapFactor = 511. *)
Lemma folds_by_output_polarity_fails :
  reachable (flat_octave 1024) folded_run /\
  master_polarity (ring_modulated folded_run) = false /\
  output (wsAudioLoop folded_run)
  = 128 + master_value (wsAudioLoop folded_run) /\
  master_value (ring_modulated folded_run) = 126 /\
  wrap_factor (ring_modulated folded_run) = 511 /\
  neg_wrap_factor (ring_modulated folded_run) = 255 /\
  master_value (wrap_multiply (ring_modulated folded_run)) = 126 * 255 /\
  ~ folds_by_output_polarity folded_run.
Proof.
  split; [exact folded_run_reachable|].
  assert (Hp : master_polarity (ring_modulated folded_run) = false)
    by (vm_compute; reflexivity).
  conjs; try (vm_compute; reflexivity).
  intros [H _]. specialize (H Hp). vm_compute in H. discriminate H.
Qed.

(** ** Smoothing over many samples *)

Lemma samples_0 (s : state) : samples 0 s = s.
Proof. reflexivity. Qed.

Lemma samples_offsets (n : nat) :
  forall s : state,
    is_u16 (slave_offset_current s) -> is_u16 (slave_offset_measured s) ->
    slave_offset_measured (samples n s) = slave_offset_measured s /\
    slave_offset_current (samples n s)
    = approach (slave_offset_current s) (slave_offset_measured s) n.
Proof.
  induction n as [|n IH]; intros s Hc Ht.
  - rewrite samples_0. split; [reflexivity|].
    unfold approach, is_u16 in *.
    destruct (Z.leb_spec (slave_offset_current s) (slave_offset_measured s));
      lia.
  - rewrite samples_S.
    pose proof (wsAudioLoop_offset_measured s) as Em.
    pose proof (wsAudioLoop_offset_current s) as Ec.
    rewrite (smooth_offset_current s Hc Ht) in Ec.
    destruct (IH (wsAudioLoop s)) as [-> ->].
    + rewrite Ec. now apply approach_range.
    + now rewrite Em.
    + rewrite Em, Ec. split; [reflexivity | apply approach_step].
Qed.

(** C5. With the target t held, the smoothed offset c moves by exactly 1
    towards t on each sample and rests once it is there: after n samples it
    stands at [approach c t n], still |c - t| - n away while n < |c - t|,
    on t from sample |c - t| on, and never past it. *)
Theorem smoothing_converges (s : state) (n : nat) :
  is_u16 (slave_offset_current s) -> is_u16 (slave_offset_measured s) ->
  let c := slave_offset_current s in
  let t := slave_offset_measured s in
  let after k := slave_offset_current (samples k s) in
  slave_offset_measured (samples n s) = t /\
  after n = approach c t n /\
  (c < t -> after 1%nat = c + 1) /\
  (c > t -> after 1%nat = c - 1) /\
  (c = t -> after 1%nat = c) /\
  after (Z.to_nat (Z.abs (c - t))) = t /\
  (Z.of_nat n < Z.abs (c - t) ->
   Z.abs (after n - t) = Z.abs (c - t) - Z.of_nat n) /\
  (Z.abs (c - t) <= Z.of_nat n -> after n = t) /\
  Z.min c t <= after n <= Z.max c t.
Proof.
  intros Hc Ht. cbv zeta.
  destruct (samples_offsets n s Hc Ht) as [Em En].
  destruct (samples_offsets 1 s Hc Ht) as [_ E1].
  destruct (samples_offsets (Z.to_nat (Z.abs (slave_offset_current s
                                              - slave_offset_measured s)))
              s Hc Ht) as [_ Ed].
  rewrite Em, En, E1, Ed. unfold approach.
  destruct (Z.leb_spec (slave_offset_current s) (slave_offset_measured s));
    conjs; try reflexivity; lia.
Qed.

Lemma smoothing_converges_witness :
  let s := set_slave_offset_measured 5 initial in
  is_u16 (slave_offset_current s) /\ is_u16 (slave_offset_measured s) /\
  slave_offset_current (samples 4 s) = 5 /\
  slave_offset_current (samples 3 s) = 4 /\
  slave_offset_current (samples 9 s) = 5.
Proof.
  cbv zeta.
  assert (Hc : is_u16 (slave_offset_current
                         (set_slave_offset_measured 5 initial)))
    by (unfold is_u16; simpl; lia).
  assert (Ht : is_u16 (slave_offset_measured
                         (set_slave_offset_measured 5 initial)))
    by (unfold is_u16; simpl; lia).
  conjs; [exact Hc | exact Ht | | | ].
  - rewrite (proj1 (proj2 (smoothing_converges _ 4 Hc Ht))). reflexivity.
  - rewrite (proj1 (proj2 (smoothing_converges _ 3 Hc Ht))). reflexivity.
  - rewrite (proj1 (proj2 (smoothing_converges _ 9 Hc Ht))). reflexivity.
Defined.

(** ** The control-rate sampler *)

(** The macro expressions, conversion by conversion. *)
Ltac conv_run :=
  cbv [eval pitch_expr wrap_expr min_ max_ bind ret analogRead knob_eqb
       PITCH_CV PITCH_KNOB WRAP_KNOB SLAVE_KNOB fst].

Lemma wrap_eval (adc : knob -> nat -> Z) :
  eval wrap_expr adc
  = (if 64 + Z.shiftr (adc WRAP_KNOB 0%nat) 1 <? 511
     then 64 + Z.shiftr (adc WRAP_KNOB 1%nat) 1 else 511).
Proof.
  conv_run.
  destruct (64 + Z.shiftr (adc wsKnob2 0%nat) 1 <? 511); reflexivity.
Qed.

Lemma pitch_eval (adc : knob -> nat -> Z) :
  eval pitch_expr adc
  = (let low := 0 >? adc PITCH_KNOB 0%nat - 600 in
     let n := if low then 1%nat else 2%nat in
     if 1023 <? adc PITCH_CV 0%nat
                + (if low then 0 else adc PITCH_KNOB 1%nat - 600)
     then 1023
     else adc PITCH_CV 1%nat
          + (if 0 >? adc PITCH_KNOB n - 600 then 0
             else adc PITCH_KNOB (S n) - 600)).
Proof.
  conv_run.
  destruct (0 >? adc wsKnob1 0%nat - 600); cbv beta iota zeta.
  - destruct (1023 <? adc wsKnob4 0%nat + 0); cbv beta iota zeta;
      [reflexivity|].
    destruct (0 >? adc wsKnob1 1%nat - 600); reflexivity.
  - destruct (1023 <? adc wsKnob4 0%nat + (adc wsKnob1 1%nat - 600));
      cbv beta iota zeta; [reflexivity|].
    destruct (0 >? adc wsKnob1 2%nat - 600); reflexivity.
Qed.

Lemma neg_eval (w : Z) (adc : knob -> nat -> Z) :
  eval (max_ (ret (Z.shiftr w 1)) (ret 64)) adc = Z.max (w / 2) 64.
Proof.
  conv_run. rewrite Z.shiftr_div_pow2 by lia. change (2 ^ 1) with 2.
  rewrite Z.gtb_ltb. destruct (Z.ltb_spec 64 (w / 2)); lia.
Qed.

Lemma loop_phase_inc (octave : Z -> Z) (adc : knob -> nat -> Z) (s : state) :
  phase_inc (loop octave adc s) = u16 (octave (pitch_reading adc)).
Proof. reflexivity. Qed.

Lemma loop_offset_measured
  (octave : Z -> Z) (adc : knob -> nat -> Z) (s : state) :
  slave_offset_measured (loop octave adc s) = u16 (adc SLAVE_KNOB 0%nat).
Proof. reflexivity. Qed.

Lemma loop_wrap_factor (octave : Z -> Z) (adc : knob -> nat -> Z) (s : state) :
  wrap_factor (loop octave adc s) = u16 (eval wrap_expr adc).
Proof. reflexivity. Qed.

Lemma loop_neg_wrap_factor
  (octave : Z -> Z) (adc : knob -> nat -> Z) (s : state) :
  neg_wrap_factor (loop octave adc s)
  = u16 (Z.max (wrap_factor (loop octave adc s) / 2) 64).
Proof.
  rewrite <- (neg_eval (wrap_factor (loop octave adc s)) adc). reflexivity.
Qed.

(** The two fold factors as line 105 converts the fold input: once to
    compare, once more for the value. *)
Lemma loop_factors (octave : Z -> Z) (adc : knob -> nat -> Z) (s : state) :
  is_adc (adc WRAP_KNOB 0%nat) -> is_adc (adc WRAP_KNOB 1%nat) ->
  wrap_factor (loop octave adc s)
  = (if 64 + adc WRAP_KNOB 0%nat / 2 <? 511
     then 64 + adc WRAP_KNOB 1%nat / 2 else 511) /\
  neg_wrap_factor (loop octave adc s)
  = Z.max (wrap_factor (loop octave adc s) / 2) 64.
Proof.
  unfold is_adc. intros Ha Hb.
  assert (E : wrap_factor (loop octave adc s)
              = (if 64 + adc WRAP_KNOB 0%nat / 2 <? 511
                 then 64 + adc WRAP_KNOB 1%nat / 2 else 511)).
  { rewrite loop_wrap_factor, wrap_eval.
    rewrite !Z.shiftr_div_pow2 by lia. change (2 ^ 1) with 2.
    apply u16_small. unfold is_u16.
    destruct (64 + adc WRAP_KNOB 0%nat / 2 <? 511);
      Z.div_mod_to_equations; lia. }
  split; [exact E|].
  rewrite loop_neg_wrap_factor. apply u16_small. rewrite E. unfold is_u16.
  destruct (64 + adc WRAP_KNOB 0%nat / 2 <? 511);
    Z.div_mod_to_equations; lia.
Qed.

Lemma in_turn_adc (l : list (knob -> Z)) :
  Forall (fun r => forall k, is_adc (r k)) l -> in_adc (in_turn l).
Proof.
  intros H k n. unfold in_turn. revert n.
  induction H as [|r l Hr _ IH]; intros [|n]; cbn [nth];
    try (unfold is_adc; lia); auto.
Qed.

(** C6, on the code.  Line 105 converts the fold input twice, once for the
    comparison of [min] and once more for the value, so the clamp is lost
    when the input moves in between: conversions of 893 and then 896, both
    within 0..1023, leave WrapFactor at 512 and NegWrapFactor at 256, above
    the 511 and 255 of the claim, from any state. *)
Theorem wrap_clamp_defeated (octave : Z -> Z) (s : state) :
  in_adc noisy_fold /\
  noisy_fold WRAP_KNOB 0%nat = 893 /\ noisy_fold WRAP_KNOB 1%nat = 896 /\
  wrap_factor (loop octave noisy_fold s) = 512 /\
  neg_wrap_factor (loop octave noisy_fold s) = 256.
Proof.
  assert (Ha : in_adc noisy_fold).
  { apply in_turn_adc. repeat constructor;
      apply readings_adc; unfold is_adc; lia. }
  destruct (loop_factors octave noisy_fold s (Ha _ _) (Ha _ _)) as [Ew En].
  conjs; [exact Ha | reflexivity | reflexivity | | ].
  - rewrite Ew. reflexivity.
  - rewrite En, Ew. reflexivity.
Qed.

(** C7, on the code.  Line 94 converts CV twice and the pitch knob up to
    four times; when an input moves in between, the value handed to the
    octave lookup leaves 0..1023.  With CV at 0 and the knob read as 600,
    599, 600, 599 it is -1, stored in [pwmv] as 65535; with the knob at 1000
    and CV read as 600 and then 700 it is 1100. *)
Theorem pitch_clamp_defeated (octave : Z -> Z) (s : state) :
  in_adc noisy_knob /\ in_adc rising_cv /\
  eval pitch_expr noisy_knob = -1 /\
  pitch_reading noisy_knob = 65535 /\
  phase_inc (loop octave noisy_knob s) = u16 (octave 65535) /\
  pitch_reading rising_cv = 1100 /\
  phase_inc (loop octave rising_cv s) = u16 (octave 1100).
Proof.
  assert (Ha : in_adc noisy_knob).
  { apply in_turn_adc. repeat constructor;
      apply readings_adc; unfold is_adc; lia. }
  assert (Hb : in_adc rising_cv).
  { apply in_turn_adc. repeat constructor;
      apply readings_adc; unfold is_adc; lia. }
  assert (E1 : eval pitch_expr noisy_knob = -1)
    by (rewrite pitch_eval; reflexivity).
  assert (E2 : pitch_reading rising_cv = 1100)
    by (unfold pitch_reading; rewrite pitch_eval; reflexivity).
  assert (E3 : pitch_reading noisy_knob = 65535)
    by (unfold pitch_reading; rewrite E1; reflexivity).
  rewrite !loop_phase_inc, E2, E3. conjs; auto.
Qed.

(** ** Who writes what *)

Lemma wsAudioLoop_controls (s : state) :
  phase_inc (wsAudioLoop s) = phase_inc s /\
  slave_offset_measured (wsAudioLoop s) = slave_offset_measured s /\
  wrap_factor (wsAudioLoop s) = wrap_factor s /\
  neg_wrap_factor (wsAudioLoop s) = neg_wrap_factor s.
Proof.
  unfold wsAudioLoop, ring_modulated, wave_fold. frames.
  destruct (oscillators_controls s) as (-> & -> & -> & -> & _).
  conjs; reflexivity.
Qed.

Lemma wsAudioLoop_pwm (s : state) : pwm (wsAudioLoop s) = output s.
Proof.
  unfold wsAudioLoop, ring_modulated, wave_fold, oscillators. frames.
  reflexivity.
Qed.

Lemma wsAudioLoop_master_phase (s : state) :
  master_phase (wsAudioLoop s) = u16 (master_phase s + phase_inc s).
Proof.
  destruct (wsAudioLoop_oscillators s) as (-> & _).
  apply oscillators_master_phase.
Qed.

Lemma loop_keeps (octave : Z -> Z) (adc : knob -> nat -> Z) (s : state) :
  let s' := loop octave adc s in
  master_phase s' = master_phase s /\
  slave_offset_current s' = slave_offset_current s /\
  slave_phase s' = slave_phase s /\ accumulator s' = accumulator s /\
  master_value s' = master_value s /\ slave_value s' = slave_value s /\
  master_polarity s' = master_polarity s /\
  slave_polarity s' = slave_polarity s /\
  output s' = output s /\ pwm s' = pwm s.
Proof.
  cbv zeta. unfold loop, loop_neg, loop_wrap, loop_slave, loop_pitch.
  fields. conjs; reflexivity.
Qed.

(** X1. The sampler and the handler keep to their own globals: a pass of
    [loop] writes the phase increment, the offset target and the two fold
    factors and nothing else; a sample interrupt writes none of those four,
    and the PWM register it leaves holds the output of the sample before. *)
Theorem sampler_and_handler_ownership
  (octave : Z -> Z) (adc : knob -> nat -> Z) (s : state) :
  (let l := loop octave adc s in
   master_phase l = master_phase s /\
   slave_offset_current l = slave_offset_current s /\
   slave_phase l = slave_phase s /\ accumulator l = accumulator s /\
   master_value l = master_value s /\ slave_value l = slave_value s /\
   master_polarity l = master_polarity s /\
   slave_polarity l = slave_polarity s /\
   output l = output s /\ pwm l = pwm s) /\
  (let a := wsAudioLoop s in
   phase_inc a = phase_inc s /\
   slave_offset_measured a = slave_offset_measured s /\
   wrap_factor a = wrap_factor s /\
   neg_wrap_factor a = neg_wrap_factor s /\
   pwm a = output s).
Proof.
  split; [exact (loop_keeps octave adc s)|]. cbv zeta.
  destruct (wsAudioLoop_controls s) as (-> & -> & -> & ->).
  rewrite wsAudioLoop_pwm. conjs; reflexivity.
Qed.

(** ** Ranges kept by every step *)

Lemma initial_in_range : in_range initial.
Proof. unfold in_range, is_u16, is_adc. simpl. lia. Qed.












(** X16. The two fold factors can be seen out of order: when the fold
    input falls from 1023 to 0, an interrupt between lines 105 and 106 finds
    WrapFactor already at 64 and NegWrapFactor still at 255, and runs the
    whole sample on that pair. *)
Theorem fold_factors_seen_out_of_order (octave : Z -> Z) :
  exists s : state,
    reach octave at_neg s /\
    wrap_factor s = 64 /\ neg_wrap_factor s = 255 /\
    reach octave at_neg (wsAudioLoop s) /\
    wrap_factor (wsAudioLoop s) < neg_wrap_factor (wsAudioLoop s).
Proof.
  set (up := steady (readings 0 1023 0 0)).
  set (down := steady (readings 0 0 0 0)).
  assert (Hu : in_adc up)
    by (apply steady_in_adc, readings_adc; unfold is_adc; lia).
  assert (Hd : in_adc down)
    by (apply steady_in_adc, readings_adc; unfold is_adc; lia).
  set (s0 := loop octave up initial).
  assert (R0 : reach octave at_pitch s0)
    by (apply reach_loop; [exact Hu | apply reach_setup]).
  exists (loop_wrap down (loop_slave down (loop_pitch octave down s0))).
  assert (R : reach octave at_neg
                (loop_wrap down (loop_slave down (loop_pitch octave down s0)))).
  { apply reach_wrap; [exact Hd|]. apply reach_slave; [exact Hd|].
    apply reach_pitch; [exact Hd | exact R0]. }
  assert (Ew : wrap_factor
                 (loop_wrap down (loop_slave down (loop_pitch octave down s0)))
               = 64) by reflexivity.
  assert (En : neg_wrap_factor
                 (loop_wrap down (loop_slave down (loop_pitch octave down s0)))
               = 255) by reflexivity.
  destruct (wsAudioLoop_controls
              (loop_wrap down (loop_slave down (loop_pitch octave down s0))))
    as (_ & _ & Hw & Hn).
  conjs; [exact R | exact Ew | exact En | now apply reach_sample |].
  rewrite Hw, Hn, Ew, En. lia.
Qed.

(** ** The wave-folder in closed form *)

Lemma wrap_rescale_value (s : state) :
  master_value (wrap_rescale s) = (master_value s / 64) mod 256.
Proof.
  unfold wrap_rescale. fields.
  generalize (master_value s). intros v. arith.
Qed.

Lemma reflect_fold (w : Z) :
  0 <= w <= 255 ->
  (if 127 <? w then 127 - Z.land w 127 else w) = reflect w.
Proof.
  intros H. unfold reflect. rewrite land_low7.
  destruct (Z.ltb_spec 127 w), (Z.leb_spec w 127); try lia.
  Z.div_mod_to_equations. lia.
Qed.

Lemma wave_fold_value (r : state) :
  master_value (wave_fold r)
  = reflect ((u16 (master_value r * fold_factor r) / 64) mod 256).
Proof.
  unfold wave_fold.
  pose proof (wrap_rescale_range (wrap_multiply r)) as Hv.
  rewrite (fold_wrap_small _ Hv), fold_reflect_value.
  rewrite (reflect_fold _ Hv), wrap_rescale_value, wrap_multiply_value.
  reflexivity.
Qed.

Lemma wsAudioLoop_master_value (s : state) :
  master_value (wsAudioLoop s) = master_value (wave_fold (ring_modulated s)).
Proof. unfold wsAudioLoop. apply make_output_keeps. Qed.

Lemma ring_modulated_value (s : state) :
  master_value (ring_modulated s)
  = ring_magnitude (master_value (oscillators s)) (slave_value (oscillators s))
  /\ 0 <= master_value (ring_modulated s) <= 126.
Proof.
  assert (Hm : 0 <= master_value (oscillators s) <= 254)
    by (rewrite oscillators_master_value; apply pseudo_sine_range).
  assert (Hs : 0 <= slave_value (oscillators s) <= 254)
    by (rewrite oscillators_slave_value; apply pseudo_sine_range).
  destruct (ring_product _ _ Hm Hs) as (Hp & Hw & Hr).
  unfold ring_modulated, ring_magnitude. rewrite ring_mod_value, Hw.
  split; [reflexivity | exact Hr].
Qed.

Lemma ring_modulated_polarity (s : state) :
  master_polarity (ring_modulated s)
  = xorb (polarity (master_phase (oscillators s)))
         (polarity (slave_phase (oscillators s))).
Proof.
  unfold ring_modulated.
  rewrite ring_mod_polarity, oscillators_master_polarity,
    oscillators_slave_polarity.
  reflexivity.
Qed.

(** X3. The rescale of lines 170-171 keeps bits 6..13 of the product and
    drops bits 14 and 15: it yields (v / 64) mod 256, which is v >> 6 only
    while v is below 16384. *)
Theorem rescale_drops_top_bits (s : state) :
  is_u16 (master_value s) ->
  master_value (wrap_rescale s) = (master_value s / 64) mod 256 /\
  (master_value (wrap_rescale s) = Z.shiftr (master_value s) 6
   <-> master_value s < 16384).
Proof.
  unfold is_u16. intros H. rewrite wrap_rescale_value.
  rewrite Z.shiftr_div_pow2 by lia. change (2 ^ 6) with 64.
  generalize dependent (master_value s). intros v H.
  split; [reflexivity|]. split; intros E; Z.div_mod_to_equations; lia.
Qed.

Lemma rescale_drops_top_bits_witness :
  let s := set_master_value 32130 initial in
  is_u16 (master_value s) /\
  master_value (wrap_rescale s) = 246 /\ Z.shiftr (master_value s) 6 = 502.
Proof.
  cbv zeta.
  assert (H : is_u16 (master_value (set_master_value 32130 initial)))
    by (unfold is_u16; simpl; lia).
  conjs; [exact H | | reflexivity].
  rewrite (proj1 (rescale_drops_top_bits _ H)). reflexivity.
Defined.

(** X4. The whole wave-folder in one formula: the value a sample interrupt
    leaves is the byte ((m * f) mod 65536 / 64) mod 256 folded about the
    middle of its range (w up to 127, 255 - w above), m the ring-modulated
    magnitude and f the factor line 166 picks; the output is 127 or 128
    minus or plus that value. *)
Theorem wave_fold_closed_form (s : state) :
  let r := ring_modulated s in
  let s' := wsAudioLoop s in
  master_value s'
  = reflect ((u16 (master_value r * fold_factor r) / 64) mod 256) /\
  output s'
  = (if master_polarity r then 127 - master_value s'
     else 128 + master_value s').
Proof.
  cbv zeta. destruct (wsAudioLoop_output s) as (_ & Hp & Ho).
  rewrite <- Hp, <- Ho, wsAudioLoop_master_value, wave_fold_value.
  split; reflexivity.
Qed.

(** X5. Within a sample interrupt the test of line 175 never holds, so the
    polarity inversion of line 178 and the mask of line 180 never run: the
    flag the output stage reads is the exclusive or of bit 15 of the master
    phase and bit 15 of the slave phase. *)
Theorem polarity_inversion_never_runs (s : state) :
  let r := wrap_rescale (wrap_multiply (ring_modulated s)) in
  let s' := wsAudioLoop s in
  to_bool (Z.land (master_value r) 65280) = false /\
  fold_wrap r = r /\
  master_polarity s'
  = xorb (polarity (master_phase s')) (polarity (slave_phase s')).
Proof.
  cbv zeta. destruct (fold_wrap_idle s) as [Hi Hf].
  destruct (wsAudioLoop_output s) as (_ & -> & _).
  destruct (wsAudioLoop_oscillators s) as (-> & _ & -> & _).
  rewrite ring_modulated_polarity. conjs; auto.
Qed.

(** X6. With the fold factors in the sampler's ranges the multiplication
    of line 166 does not wrap: the product is at most 126 * 511 = 64386. *)
Theorem wrap_product_exact (s : state) :
  in_range s ->
  let r := ring_modulated s in
  master_value (wrap_multiply r) = master_value r * fold_factor r /\
  0 <= master_value r * fold_factor r <= 64386.
Proof.
  unfold in_range. intros H. cbv zeta.
  destruct (ring_modulated_value s) as [_ Hm].
  destruct (ring_modulated_controls s) as [Hw Hn].
  rewrite wrap_multiply_value. unfold fold_factor. rewrite Hw, Hn.
  assert (Hf : 0 <= (if master_polarity (ring_modulated s)
                     then wrap_factor s else neg_wrap_factor s) <= 511)
    by (destruct (master_polarity (ring_modulated s)); lia).
  generalize dependent (if master_polarity (ring_modulated s)
                        then wrap_factor s else neg_wrap_factor s).
  intros f Hf.
  generalize dependent (master_value (ring_modulated s)). intros m Hm.
  assert (0 <= m * f <= 64386) by nia.
  split; [apply u16_small; unfold is_u16; lia | lia].
Qed.

Lemma wrap_product_exact_witness :
  in_range initial /\
  master_value (wrap_multiply (ring_modulated initial))
  = master_value (ring_modulated initial)
    * fold_factor (ring_modulated initial).
Proof.
  split; [exact initial_in_range|].
  exact (proj1 (wrap_product_exact initial initial_in_range)).
Defined.

(** X7. At the least fold (both factors 64, as at start-up and with the
    fold knob fully down) the wave-folder is transparent: the value it
    leaves is the ring-modulated magnitude itself. *)
Theorem minimum_fold_is_transparent (s : state) :
  wrap_factor s = 64 -> neg_wrap_factor s = 64 ->
  let r := ring_modulated s in
  let s' := wsAudioLoop s in
  master_value s' = master_value r /\
  output s'
  = (if master_polarity r then 127 - master_value r
     else 128 + master_value r).
Proof.
  intros Hw Hn. cbv zeta.
  destruct (wsAudioLoop_output s) as (_ & Hp & Ho).
  assert (E : master_value (wsAudioLoop s) = master_value (ring_modulated s)).
  { rewrite wsAudioLoop_master_value, wave_fold_value. unfold fold_factor.
    destruct (ring_modulated_controls s) as [-> ->]. rewrite Hw, Hn.
    destruct (ring_modulated_value s) as [_ Hm].
    assert (F : (if master_polarity (ring_modulated s) then 64 else 64) = 64)
      by (destruct (master_polarity (ring_modulated s)); reflexivity).
    rewrite F.
    generalize dependent (master_value (ring_modulated s)). intros m Hm.
    unfold reflect, u16.
    destruct (Z.leb_spec ((m * 64) mod 65536 / 64 mod 256) 127);
      Z.div_mod_to_equations; lia. }
  rewrite <- Hp, <- E. split; [reflexivity | exact Ho].
Qed.

Lemma minimum_fold_is_transparent_witness :
  wrap_factor initial = 64 /\ neg_wrap_factor initial = 64 /\
  master_value (wsAudioLoop initial) = master_value (ring_modulated initial).
Proof.
  conjs; [reflexivity | reflexivity |].
  exact (proj1 (minimum_fold_is_transparent initial eq_refl eq_refl)).
Defined.

(** ** The phases over time *)

Lemma samples_controls (n : nat) :
  forall s : state,
    phase_inc (samples n s) = phase_inc s /\
    wrap_factor (samples n s) = wrap_factor s /\
    neg_wrap_factor (samples n s) = neg_wrap_factor s.
Proof.
  induction n as [|n IH]; intros s.
  - rewrite samples_0. conjs; reflexivity.
  - rewrite samples_S. destruct (IH (wsAudioLoop s)) as (-> & -> & ->).
    destruct (wsAudioLoop_controls s) as (-> & _ & -> & ->).
    conjs; reflexivity.
Qed.

Lemma samples_master_phase (n : nat) :
  forall s : state,
    is_u16 (master_phase s) ->
    master_phase (samples n s)
    = (master_phase s + Z.of_nat n * phase_inc s) mod 65536.
Proof.
  induction n as [|n IH]; intros s H.
  - rewrite samples_0. unfold is_u16 in H.
    change (Z.of_nat 0) with 0. Z.div_mod_to_equations. lia.
  - rewrite samples_S, IH by (rewrite wsAudioLoop_master_phase;
                              apply u16_range).
    rewrite wsAudioLoop_master_phase.
    destruct (wsAudioLoop_controls s) as (-> & _).
    rewrite Nat2Z.inj_succ, Z.mul_succ_l.
    generalize (Z.of_nat n * phase_inc s). intros k.
    unfold u16. Z.div_mod_to_equations. lia.
Qed.

(** X8. With the phase increment held, n samples advance the master phase
    by n times the increment modulo 65536, whatever the other globals do
    meanwhile. *)
Theorem master_phase_accumulates (s : state) (n : nat) :
  is_u16 (master_phase s) ->
  phase_inc (samples n s) = phase_inc s /\
  master_phase (samples n s)
  = (master_phase s + Z.of_nat n * phase_inc s) mod 65536.
Proof.
  intros H. split.
  - apply samples_controls.
  - now apply samples_master_phase.
Qed.

Lemma master_phase_accumulates_witness :
  is_u16 (master_phase initial) /\
  master_phase (samples 300 initial)
  = (master_phase initial + Z.of_nat 300 * phase_inc initial) mod 65536.
Proof.
  assert (H : is_u16 (master_phase initial)) by (unfold is_u16; simpl; lia).
  split; [exact H|].
  exact (proj2 (master_phase_accumulates initial 300 H)).
Defined.

Lemma pseudo_sine_zero (P : Z) : P mod 32768 < 128 -> pseudo_sine P = 0.
Proof.
  intros H. rewrite pseudo_sine_eq, sine_x_eq.
  replace (P mod 32768 / 128) with 0 by (Z.div_mod_to_equations; lia).
  reflexivity.
Qed.

Lemma reflect_0 : reflect 0 = 0.
Proof. reflexivity. Qed.

(** X9. Around a zero crossing of the master (its new phase within the
    first 128 counts of a half cycle) the master magnitude is 0, and so is
    the folded value whatever the slave and the fold factors are: the
    output is 128 or 127. *)
Theorem silent_at_zero_crossing (s : state) :
  u16 (master_phase s + phase_inc s) mod 32768 < 128 ->
  let s' := wsAudioLoop s in
  master_value (oscillators s) = 0 /\ master_value s' = 0 /\
  (output s' = 128 \/ output s' = 127).
Proof.
  intros H. cbv zeta.
  assert (E0 : master_value (oscillators s) = 0)
    by (rewrite oscillators_master_value, oscillators_master_phase;
        now apply pseudo_sine_zero).
  assert (E1 : master_value (ring_modulated s) = 0).
  { destruct (ring_modulated_value s) as [-> _]. rewrite E0.
    reflexivity. }
  assert (E2 : master_value (wsAudioLoop s) = 0).
  { rewrite wsAudioLoop_master_value, wave_fold_value, E1.
    rewrite Z.mul_0_l. reflexivity. }
  destruct (wsAudioLoop_output s) as (_ & _ & Ho). rewrite E2 in Ho.
  conjs; auto.
  rewrite Ho. destruct (master_polarity (wsAudioLoop s)); [right|left];
    reflexivity.
Qed.

Lemma silent_at_zero_crossing_witness :
  u16 (master_phase initial + phase_inc initial) mod 32768 < 128 /\
  (output (wsAudioLoop initial) = 128 \/ output (wsAudioLoop initial) = 127).
Proof.
  assert (H : u16 (master_phase initial + phase_inc initial) mod 32768 < 128)
    by (vm_compute; reflexivity).
  split; [exact H|].
  exact (proj2 (proj2 (silent_at_zero_crossing initial H))).
Defined.

Lemma smooth_offset_rest (s : state) :
  slave_offset_current s = slave_offset_measured s -> smooth_offset s = s.
Proof.
  intros E. unfold smooth_offset. rewrite E, Z.ltb_irrefl.
  rewrite Z.gtb_ltb, Z.ltb_irrefl. reflexivity.
Qed.

Lemma wsAudioLoop_slave_phase (s : state) :
  is_u16 (slave_offset_current s) ->
  slave_phase (wsAudioLoop s)
  = slave_of (master_phase (wsAudioLoop s))
             (slave_offset_current (wsAudioLoop s)).
Proof.
  intros H. destruct (wsAudioLoop_oscillators s) as (-> & -> & -> & _).
  now apply oscillators_slave_phase.
Qed.

(** X10. With the detune at rest on 0 (offset and target both 0) the slave
    phase equals the master phase on every sample, the two polarities
    cancel, and the output never goes below 128. *)
Theorem unison_is_rectified (s : state) :
  slave_offset_current s = 0 -> slave_offset_measured s = 0 ->
  let s' := wsAudioLoop s in
  slave_offset_current s' = 0 /\
  slave_phase s' = master_phase s' /\
  master_polarity s' = false /\
  128 <= output s' <= 255.
Proof.
  intros Hc Ht. cbv zeta.
  assert (Hu : is_u16 (slave_offset_current s))
    by (rewrite Hc; unfold is_u16; lia).
  assert (Ec : slave_offset_current (wsAudioLoop s) = 0).
  { rewrite wsAudioLoop_offset_current, smooth_offset_rest; congruence. }
  assert (Ep : slave_phase (wsAudioLoop s) = master_phase (wsAudioLoop s)).
  { rewrite (wsAudioLoop_slave_phase s Hu), Ec, wsAudioLoop_master_phase.
    unfold slave_of. rewrite Z.mul_0_r.
    pose proof (u16_range (master_phase s + phase_inc s)) as Hm.
    unfold is_u16 in Hm.
    generalize dependent (u16 (master_phase s + phase_inc s)).
    intros m Hm. change (Z.shiftr 0 8) with 0.
    Z.div_mod_to_equations. lia. }
  destruct (wsAudioLoop_output s) as (Hv & Hp & Ho).
  assert (Ef : master_polarity (wsAudioLoop s) = false).
  { rewrite Hp, ring_modulated_polarity.
    destruct (wsAudioLoop_oscillators s) as (<- & _ & <- & _).
    rewrite Ep. apply xorb_nilpotent. }
  rewrite Ef in Ho. conjs; auto; lia.
Qed.

Lemma unison_is_rectified_witness :
  let s := set_slave_offset_measured 0 (set_slave_offset_current 0 initial) in
  slave_offset_current s = 0 /\ slave_offset_measured s = 0 /\
  128 <= output (wsAudioLoop s) <= 255.
Proof.
  cbv zeta. conjs; [reflexivity | reflexivity | | ];
    apply (unison_is_rectified
             (set_slave_offset_measured 0
                (set_slave_offset_current 0 initial)) eq_refl eq_refl).
Defined.

(** X11. Hard sync and harmonic detune: at an offset of 256 * k the slave
    phase is (k + 1) times the master phase modulo 65536, exactly; and
    whenever the master phase is 0 the slave phase is 0, at any offset. *)
Theorem slave_is_harmonic (s : state) (k : Z) :
  is_u16 (master_phase s) -> 0 <= k <= 255 ->
  (slave_offset_current s = 256 * k ->
   slave_phase (slave_phase_calc s) = ((k + 1) * master_phase s) mod 65536) /\
  (is_u16 (slave_offset_current s) -> master_phase s = 0 ->
   slave_phase (slave_phase_calc s) = 0).
Proof.
  intros HM Hk. split.
  - intros E. rewrite slave_phase_calc_spec; [|exact HM|].
    + rewrite E. unfold slave_of. rewrite Z.shiftr_div_pow2 by lia.
      change (2 ^ 8) with 256.
      replace (master_phase s * (256 * k)) with (master_phase s * k * 256)
        by ring.
      rewrite Z.div_mul by lia. f_equal. ring.
    + rewrite E. unfold is_u16. lia.
  - intros HS E. rewrite slave_phase_calc_spec by assumption.
    rewrite E. unfold slave_of. rewrite Z.mul_0_l. reflexivity.
Qed.

Lemma slave_is_harmonic_witness :
  let s := set_slave_offset_current 512 (set_master_phase 30000 initial) in
  is_u16 (master_phase s) /\ 0 <= 2 <= 255 /\
  slave_phase (slave_phase_calc s) = 24464.
Proof.
  cbv zeta.
  assert (HM : is_u16 (master_phase
                 (set_slave_offset_current 512
                    (set_master_phase 30000 initial))))
    by (unfold is_u16; simpl; lia).
  assert (Hk : 0 <= 2 <= 255) by lia.
  conjs; [exact HM | lia | lia |].
  rewrite (proj1 (slave_is_harmonic _ 2 HM Hk) eq_refl). reflexivity.
Defined.

(** ** The shape of the pseudo-sine *)

Lemma parabola_mirror (x : Z) : (255 - x) * (255 - (255 - x)) = x * (255 - x).
Proof. ring. Qed.

Lemma parabola_rises (x y : Z) :
  0 <= x <= y -> y <= 127 -> x * (255 - x) <= y * (255 - y).
Proof. intros H H'. nia. Qed.

Lemma parabola_ends (x : Z) :
  0 <= x <= 255 -> (x * (255 - x) < 64 <-> x = 0 \/ x = 255).
Proof. intros H. split; intros E; [nia | destruct E; subst; lia]. Qed.

Lemma parabola_top (x : Z) :
  0 <= x <= 255 -> (16256 <= x * (255 - x) <-> x = 127 \/ x = 128).
Proof.
  intros H. split; intros E; [|destruct E; subst; lia].
  assert (x <= 126 \/ x = 127 \/ x = 128 \/ 129 <= x) as [|[|[|]]] by lia;
    auto; nia.
Qed.

(** X12. Each half cycle of the pseudo-sine is a symmetric hump: two phases
    that mirror each other within the half cycle give the same magnitude,
    the magnitude does not fall over the first quarter, it is 0 exactly
    within 128 counts of either end and reaches 254 exactly on the 256
    counts in the middle. *)
Theorem pseudo_sine_hump (s t : state) :
  let p := master_phase s mod 32768 in
  let q := master_phase t mod 32768 in
  let a := master_value (master_sine s) in
  let b := master_value (master_sine t) in
  (p + q = 32767 -> a = b) /\
  (p <= q -> q <= 16383 -> a <= b) /\
  (a = 0 <-> p < 128 \/ 32640 <= p) /\
  (a = 254 <-> 16256 <= p < 16512).
Proof.
  cbv zeta. rewrite !master_sine_value, !pseudo_sine_eq, !sine_x_eq.
  pose proof (Z.mod_pos_bound (master_phase s) 32768 eq_refl) as Hp.
  pose proof (Z.mod_pos_bound (master_phase t) 32768 eq_refl) as Hq.
  generalize dependent (master_phase s mod 32768). intros p Hp.
  generalize dependent (master_phase t mod 32768). intros q Hq.
  assert (Hx : 0 <= p / 128 <= 255) by (Z.div_mod_to_equations; lia).
  assert (Hy : 0 <= q / 128 <= 255) by (Z.div_mod_to_equations; lia).
  pose proof (parabola_bound _ Hx) as Bx.
  pose proof (parabola_ends _ Hx) as Ex.
  pose proof (parabola_top _ Hx) as Tx.
  conjs.
  - intros E. replace (q / 128) with (255 - p / 128)
      by (Z.div_mod_to_equations; lia).
    now rewrite parabola_mirror.
  - intros Hle Hq'. apply Z.div_le_mono; [lia|].
    apply parabola_rises; Z.div_mod_to_equations; lia.
  - split; intros E.
    + assert (p / 128 * (255 - p / 128) < 64)
        by (revert E; generalize (p / 128 * (255 - p / 128)); intros;
            Z.div_mod_to_equations; lia).
      destruct Ex as [Ex _]. destruct (Ex H); Z.div_mod_to_equations; lia.
    + destruct Ex as [_ Ex].
      assert (p / 128 * (255 - p / 128) < 64)
        by (apply Ex; Z.div_mod_to_equations; lia).
      revert H Bx. generalize (p / 128 * (255 - p / 128)). intros.
      Z.div_mod_to_equations. lia.
  - split; intros E.
    + assert (16256 <= p / 128 * (255 - p / 128))
        by (revert E Bx; generalize (p / 128 * (255 - p / 128)); intros;
            Z.div_mod_to_equations; lia).
      destruct Tx as [Tx _]. destruct (Tx H); Z.div_mod_to_equations; lia.
    + destruct Tx as [_ Tx].
      assert (16256 <= p / 128 * (255 - p / 128))
        by (apply Tx; Z.div_mod_to_equations; lia).
      revert H Bx. generalize (p / 128 * (255 - p / 128)). intros.
      Z.div_mod_to_equations. lia.
Qed.

(** ** The sampler's knobs *)

Lemma pitch_reading_steady (r : knob -> Z) :
  is_adc (r PITCH_CV) -> is_adc (r PITCH_KNOB) ->
  pitch_reading (steady r)
  = Z.min 1023 (r PITCH_CV + Z.max 0 (r PITCH_KNOB - 600)).
Proof.
  unfold is_adc, pitch_reading. intros Hc Hk. rewrite pitch_eval.
  unfold steady. cbv zeta. rewrite !Z.gtb_ltb.
  destruct (Z.ltb_spec (r PITCH_KNOB - 600) 0);
    [destruct (Z.ltb_spec 1023 (r PITCH_CV + 0))
    |destruct (Z.ltb_spec 1023 (r PITCH_CV + (r PITCH_KNOB - 600)))];
    unfold u16; Z.div_mod_to_equations; lia.
Qed.

(** X13. When every conversion of an input within the pass gives the same
    reading, CV and knob in 0..1023, the value handed to the octave lookup
    is clamp(CV + max(0, knob - 600), 0, 1023), an index within 0..1023: the
    CV reading alone with the knob at 600 or below, 1023 once CV plus knob
    reaches 1623. *)
Theorem lookup_index_in_range (r : knob -> Z) :
  is_adc (r PITCH_CV) -> is_adc (r PITCH_KNOB) ->
  pitch_reading (steady r) = effective_pitch (r PITCH_CV) (r PITCH_KNOB) /\
  0 <= pitch_reading (steady r) <= 1023 /\
  (r PITCH_KNOB <= 600 -> pitch_reading (steady r) = r PITCH_CV) /\
  (1623 <= r PITCH_CV + r PITCH_KNOB -> pitch_reading (steady r) = 1023).
Proof.
  intros Hc Hk. rewrite (pitch_reading_steady r Hc Hk).
  unfold effective_pitch, clamp, is_adc in *. conjs; lia.
Qed.

Lemma lookup_index_in_range_witness :
  is_adc (readings 800 0 0 0 PITCH_CV) /\
  is_adc (readings 800 0 0 0 PITCH_KNOB) /\
  pitch_reading (steady (readings 800 0 0 0)) = 200.
Proof.
  assert (Hc : is_adc (readings 800 0 0 0 PITCH_CV))
    by (unfold is_adc; simpl; lia).
  assert (Hk : is_adc (readings 800 0 0 0 PITCH_KNOB))
    by (unfold is_adc; simpl; lia).
  conjs; [exact Hc | exact Hk |].
  rewrite (proj1 (lookup_index_in_range (readings 800 0 0 0) Hc Hk)).
  reflexivity.
Defined.

(** X14. The fold factors as the code leaves them, a and b being the two
    conversions line 105 makes of the fold input: WrapFactor is 64 + b/2 if
    64 + a/2 is below 511 and 511 otherwise, NegWrapFactor is
    max(WrapFactor/2, 64); so WrapFactor lies within 64..575 and
    NegWrapFactor within 64..287, never above WrapFactor.  When the two
    conversions agree, WrapFactor is min(64 + a/2, 511), at most 511, and
    NegWrapFactor at most 255. *)
Theorem fold_knob_response
  (octave : Z -> Z) (adc : knob -> nat -> Z) (s : state) :
  is_adc (adc WRAP_KNOB 0%nat) -> is_adc (adc WRAP_KNOB 1%nat) ->
  let a := adc WRAP_KNOB 0%nat in
  let b := adc WRAP_KNOB 1%nat in
  let l := loop octave adc s in
  wrap_factor l = (if 64 + a / 2 <? 511 then 64 + b / 2 else 511) /\
  neg_wrap_factor l = Z.max (wrap_factor l / 2) 64 /\
  64 <= wrap_factor l <= 575 /\ 64 <= neg_wrap_factor l <= 287 /\
  neg_wrap_factor l <= wrap_factor l /\
  (a = b ->
   wrap_factor l = Z.min (64 + a / 2) 511 /\
   wrap_factor l <= 511 /\ neg_wrap_factor l <= 255).
Proof.
  intros Ha Hb. cbv zeta.
  destruct (loop_factors octave adc s Ha Hb) as [Ew En].
  rewrite En, Ew. unfold is_adc in *.
  destruct (Z.ltb_spec (64 + adc WRAP_KNOB 0%nat / 2) 511);
    conjs; try reflexivity;
    try match goal with |- _ = _ -> _ => intros E; conjs end;
    Z.div_mod_to_equations; lia.
Qed.

Lemma fold_knob_response_witness :
  is_adc (steady (readings 0 700 0 0) WRAP_KNOB 0%nat) /\
  is_adc (steady (readings 0 700 0 0) WRAP_KNOB 1%nat) /\
  wrap_factor (loop (flat_octave 1024) (steady (readings 0 700 0 0)) initial)
  = 414.
Proof.
  assert (H : is_adc (steady (readings 0 700 0 0) WRAP_KNOB 0%nat))
    by (unfold is_adc, steady, readings, WRAP_KNOB; lia).
  conjs; [exact H | exact H |].
  rewrite (proj1 (fold_knob_response (flat_octave 1024)
                    (steady (readings 0 700 0 0)) initial H H)).
  reflexivity.
Defined.

(** X15. A pass of the sampler leaves control values that depend on its
    readings alone: whatever an earlier pass wrote is overwritten, so two
    passes in a row equal the second one, and a pass repeated over the same
    readings changes nothing. *)
Theorem sampler_last_pass_wins
  (octave octave' : Z -> Z) (adc adc' : knob -> nat -> Z) (s : state) :
  loop octave adc (loop octave' adc' s) = loop octave adc s /\
  loop octave adc (loop octave adc s) = loop octave adc s.
Proof.
  assert (E : forall o' a', loop octave adc (loop o' a' s) = loop octave adc s)
    by (intros o' a'; destruct s; reflexivity).
  split; apply E.
Qed.
